(** * Genesis-AI background shader: a shallow embedding of [shader.js]

    The file has two halves, as the program has:

    - [Module GLSL]: the fragment stage of [fragmentShaderSource].  GLSL
      [float] is read as a real number (type [R]); the built-ins [sin],
      [exp], [abs], [clamp] and [smoothstep] are the functions the GLSL ES
      1.00 specification gives them.  Rounding to [mediump] precision is
      outside this model, so only properties that rounding keeps (bounds
      from above, thresholds, equalities of formulas) are stated of it.
    - [Module Host]: the JavaScript side ([initShader], [resizeCanvas],
      [render]) as a state-and-exception monad over the browser state the
      program touches (the canvas element, the WebGL context, the console,
      the animation-frame queue and the clock). *)

From Stdlib Require Import Reals Lra Lia ZArith QArith List String Bool.
Import ListNotations.

(* ================================================================== *)
(** * Part I: the fragment stage *)
(* ================================================================== *)

Module GLSL.

Local Open Scope R_scope.

(** ** Vectors *)

Record vec2 : Type := Vec2 { x2 : R; y2 : R }.
Record vec3 : Type := Vec3 { r3 : R; g3 : R; b3 : R }.
Record vec4 : Type := Vec4 { x4 : R; y4 : R; z4 : R; w4 : R }.

(** [v.xy] of a [vec4]. *)
Definition xy (v : vec4) : vec2 := Vec2 (x4 v) (y4 v).

(** [a / b] on [vec2], componentwise. *)
Definition div2 (a b : vec2) : vec2 := Vec2 (x2 a / x2 b) (y2 a / y2 b).

(** [v - s] with a scalar [s], componentwise. *)
Definition sub2s (v : vec2) (s : R) : vec2 := Vec2 (x2 v - s) (y2 v - s).

(** [a + b] on [vec3]. *)
Definition add3 (a b : vec3) : vec3 :=
  Vec3 (r3 a + r3 b) (g3 a + g3 b) (b3 a + b3 b).

(** [s * v] with a scalar [s]. *)
Definition scale3 (s : R) (v : vec3) : vec3 :=
  Vec3 (s * r3 v) (s * g3 v) (s * b3 v).

(** [vec4(v, w)]. *)
Definition vec4_of (v : vec3) (w : R) : vec4 := Vec4 (r3 v) (g3 v) (b3 v) w.

(** [v.rgb] of a [vec4]. *)
Definition rgb (v : vec4) : vec3 := Vec3 (x4 v) (y4 v) (z4 v).

(** ** Built-in functions (GLSL ES 1.00, section 8.3) *)

(** [clamp(x, minVal, maxVal) = min(max(x, minVal), maxVal)]. *)
Definition clamp (x minVal maxVal : R) : R := Rmin (Rmax x minVal) maxVal.

(** [smoothstep(edge0, edge1, x)]:
    [t = clamp((x - edge0) / (edge1 - edge0), 0.0, 1.0);
     return t * t * (3.0 - 2.0 * t);] *)
Definition smoothstep (edge0 edge1 x : R) : R :=
  let t := clamp ((x - edge0) / (edge1 - edge0)) 0 1 in
  t * t * (3 - 2 * t).

(** ** The [for] statement

    [for (int i = lo; i < hi; i++) body], threading the variables the body
    assigns.  [fuel] bounds the number of tests of the condition. *)
Fixpoint for_loop {A : Type} (fuel : nat) (i hi : Z) (body : Z -> A -> A)
    (acc : A) : A :=
  match fuel with
  | O => acc
  | S fuel' =>
      if (i <? hi)%Z then for_loop fuel' (i + 1)%Z hi body (body i acc)
      else acc
  end.

(** ** [fragmentShaderSource] *)

Record Uniforms : Type := { iResolution : vec2; iTime : R }.

(** [float t = float(i)/6.0;] *)
Definition t_of (i : Z) : R := IZR i / 6.

(** [float speed = 1.0 + t;] *)
Definition speed_of (i : Z) : R := 1 + t_of i.

(** [float wave = sin(iTime * speed * 0.2 + uv.y * 8.0) * 0.2;] *)
Definition wave (iTime : R) (uv : vec2) (i : Z) : R :=
  sin (iTime * speed_of i * 0.2 + y2 uv * 8) * 0.2.

(** [float line = 1.0 - smoothstep(0.003, 0.008, abs(uv.x - wave));] *)
Definition line (iTime : R) (uv : vec2) (i : Z) : R :=
  1 - smoothstep 0.003 0.008 (Rabs (x2 uv - wave iTime uv i)).

(** [float blur = exp(-abs(uv.x - wave) * 20.0) * 0.3;]

    Over the reals this value is never 0; the float [exp] of the program
    can underflow to 0.  Nothing below relies on [blur] being positive. *)
Definition blur (iTime : R) (uv : vec2) (i : Z) : R :=
  exp (- Rabs (x2 uv - wave iTime uv i) * 20) * 0.3.

(** [col += (line + blur) * vec3(0.2+t, 0.3, 0.8);] *)
Definition loop_body (iTime : R) (uv : vec2) (i : Z) (col : vec3) : vec3 :=
  add3 col
       (scale3 (line iTime uv i + blur iTime uv i)
               (Vec3 (0.2 + t_of i) 0.3 0.8)).

(** The statements of [main] after [uv] is computed: the initial colour,
    the loop and the write to [gl_FragColor]. *)
Definition shade (iTime : R) (uv : vec2) : vec4 :=
  let col := Vec3 0.05 0.05 0.1 in
  let col := for_loop 7 0 6 (loop_body iTime uv) col in
  vec4_of col 1.

(** [void main()]: returns the value written to [gl_FragColor]. *)
Definition main (gl_FragCoord : vec4) (u : Uniforms) : vec4 :=
  let uv := div2 (xy gl_FragCoord) (iResolution u) in
  let uv := sub2s uv 0.5 in
  shade (iTime u) uv.

(** ** The fragment function as the specification words it *)

(** Smooth-interpolate(x; lo, hi): 0 for [x <= lo], 1 for [x >= hi] and the
    cubic ease [s*s*(3 - 2*s)] of [s = (x - lo)/(hi - lo)] in between. *)
Definition spec_smooth_interpolate (x lo hi : R) : R :=
  if Rle_dec x lo then 0
  else if Rle_dec hi x then 1
  else let s := (x - lo) / (hi - lo) in s * s * (3 - 2 * s).

(** The contribution of iteration [i]: [(line + glow) * (0.2+f, 0.3, 0.8)]. *)
Definition spec_term (t : R) (uv : vec2) (i : nat) : vec3 :=
  let f := INR i / 6 in
  let speed := 1 + f in
  let wave := sin (t * speed * 0.2 + y2 uv * 8) * 0.2 in
  let distance := Rabs (x2 uv - wave) in
  let line := 1 - spec_smooth_interpolate distance 0.003 0.008 in
  let glow := exp (- (distance * 20)) * 0.3 in
  scale3 (line + glow) (Vec3 (0.2 + f) 0.3 0.8).

(** Sum of a list of colours. *)
Definition sum3 (l : list vec3) : vec3 :=
  fold_right add3 (Vec3 0 0 0) l.

(** Base colour plus the sum of the six contributions; alpha 1. *)
Definition spec_color (t : R) (uv : vec2) : vec4 :=
  vec4_of (add3 (Vec3 0.05 0.05 0.1) (sum3 (map (spec_term t uv) (seq 0 6))))
          1.

(** [uv] is the pixel position divided by the resolution, recentred. *)
Definition spec_uv (pixel resolution : vec2) : vec2 :=
  Vec2 (x2 pixel / x2 resolution - 0.5) (y2 pixel / y2 resolution - 0.5).

Definition spec_fragment (pixel resolution : vec2) (t : R) : vec4 :=
  spec_color t (spec_uv pixel resolution).

(** ** [vertexShaderSource] *)

(** [void main()] of the vertex stage: returns the value written to
    [gl_Position], [vec4(a_position, 0, 1)]. *)
Definition vertex_main (a_position : vec2) : vec4 :=
  Vec4 (x2 a_position) (y2 a_position) 0 1.

End GLSL.

(* ================================================================== *)
(** * Part II: the host program *)
(* ================================================================== *)

Module Host.

Local Open Scope string_scope.
Local Open Scope list_scope.
Local Open Scope Z_scope.

(** ** The WebGL context

    Only the part of the WebGL 1.0 state machine that [shader.js] drives.
    WebGL entry points never throw on GL errors: they set an error flag
    (here the list [errors]) and return.  The viewport is stored as given
    to [gl.viewport]; the canvas keeps the width and height assigned to
    it. *)

Inductive ShaderType : Type := VERTEX_SHADER | FRAGMENT_SHADER.

Inductive GLError : Type := INVALID_VALUE | INVALID_OPERATION.

(** The shader compiler and linker of the GL implementation: what
    [compileShader] answers for a stage and a source text (compile status
    and info log), whether two compiled stages link, and where a linked
    program keeps its attributes and uniforms. *)
Record Driver : Type := {
  drv_compile : ShaderType -> string -> bool * string;
  drv_link : string -> string -> bool;
  drv_attrib : string -> Z;       (* location of an attribute, or -1 *)
  drv_uniform : string -> bool    (* is the uniform active? *)
}.

Record ShaderObj : Type := {
  sh_type : ShaderType;
  sh_source : string;
  sh_compiled : bool;      (* COMPILE_STATUS *)
  sh_infoLog : string
}.

Record ProgramObj : Type := {
  pr_attached : list nat;  (* shader handles, in attachment order *)
  pr_linked : bool;        (* LINK_STATUS *)
  pr_iResolution : Q * Q;  (* value of uniform vec2 iResolution *)
  pr_iTime : Q             (* value of uniform float iTime *)
}.

Record Attrib : Type := {
  at_enabled : bool;
  at_pointer : option (nat * Z)   (* bound buffer and component count *)
}.

(** One [drawArrays(TRIANGLES, first, count)] that reached the pipeline,
    with the state it ran under. *)
Record Draw : Type := {
  dr_first : Z;
  dr_count : Z;
  dr_viewport : Z * Z * Z * Z;
  dr_iResolution : Q * Q;
  dr_iTime : Q
}.

(** The entry points of the context, as called. *)
Inductive GLCall : Type :=
| CreateShader (ty : ShaderType)
| ShaderSource (sh : nat)
| CompileShader (sh : nat)
| CreateProgram
| AttachShader (p sh : nat)
| LinkProgram (p : nat)
| UseProgram (p : nat)
| CreateBuffer
| BindBuffer (b : nat)
| BufferData (data : list Z)
| GetAttribLocation (p : nat) (name : string)
| EnableVertexAttribArray (index : Z)
| VertexAttribPointer (index : Z)
| Viewport (x y w h : Z)
| GetUniformLocation (p : nat) (name : string)
| Uniform2f (x y : Q)
| Uniform1f (x : Q)
| DrawArrays (first count : Z).

Record GLState : Type := {
  driver : Driver;
  shaders : list ShaderObj;        (* a shader's handle is its index *)
  programs : list ProgramObj;      (* likewise *)
  current : option nat;            (* CURRENT_PROGRAM *)
  buffers : list (list Z);
  array_buffer : option nat;       (* ARRAY_BUFFER_BINDING *)
  attribs : list Attrib;           (* MAX_VERTEX_ATTRIBS slots *)
  viewport : Z * Z * Z * Z;        (* x, y, width, height *)
  errors : list GLError;           (* oldest first *)
  draws : list Draw;               (* oldest first *)
  calls : list GLCall              (* oldest first *)
}.

Definition MAX_VERTEX_ATTRIBS : nat := 8.

Definition gl_initial (d : Driver) (w h : Z) : GLState :=
  {| driver := d; shaders := []; programs := []; current := None;
     buffers := []; array_buffer := None;
     attribs := repeat {| at_enabled := false; at_pointer := None |}
                       MAX_VERTEX_ATTRIBS;
     viewport := (0, 0, w, h); errors := []; draws := []; calls := [] |}.

Definition with_shaders (g : GLState) (v : list ShaderObj) : GLState :=
  {| driver := driver g; shaders := v; programs := programs g;
     current := current g; buffers := buffers g;
     array_buffer := array_buffer g; attribs := attribs g;
     viewport := viewport g; errors := errors g; draws := draws g;
     calls := calls g |}.

Definition with_programs (g : GLState) (v : list ProgramObj) : GLState :=
  {| driver := driver g; shaders := shaders g; programs := v;
     current := current g; buffers := buffers g;
     array_buffer := array_buffer g; attribs := attribs g;
     viewport := viewport g; errors := errors g; draws := draws g;
     calls := calls g |}.

Definition with_current (g : GLState) (v : option nat) : GLState :=
  {| driver := driver g; shaders := shaders g; programs := programs g;
     current := v; buffers := buffers g;
     array_buffer := array_buffer g; attribs := attribs g;
     viewport := viewport g; errors := errors g; draws := draws g;
     calls := calls g |}.

Definition with_buffers (g : GLState) (v : list (list Z)) : GLState :=
  {| driver := driver g; shaders := shaders g; programs := programs g;
     current := current g; buffers := v;
     array_buffer := array_buffer g; attribs := attribs g;
     viewport := viewport g; errors := errors g; draws := draws g;
     calls := calls g |}.

Definition with_array_buffer (g : GLState) (v : option nat) : GLState :=
  {| driver := driver g; shaders := shaders g; programs := programs g;
     current := current g; buffers := buffers g;
     array_buffer := v; attribs := attribs g;
     viewport := viewport g; errors := errors g; draws := draws g;
     calls := calls g |}.

Definition with_attribs (g : GLState) (v : list Attrib) : GLState :=
  {| driver := driver g; shaders := shaders g; programs := programs g;
     current := current g; buffers := buffers g;
     array_buffer := array_buffer g; attribs := v;
     viewport := viewport g; errors := errors g; draws := draws g;
     calls := calls g |}.

Definition with_viewport (g : GLState) (v : Z * Z * Z * Z) : GLState :=
  {| driver := driver g; shaders := shaders g; programs := programs g;
     current := current g; buffers := buffers g;
     array_buffer := array_buffer g; attribs := attribs g;
     viewport := v; errors := errors g; draws := draws g;
     calls := calls g |}.

Definition raise (g : GLState) (e : GLError) : GLState :=
  {| driver := driver g; shaders := shaders g; programs := programs g;
     current := current g; buffers := buffers g;
     array_buffer := array_buffer g; attribs := attribs g;
     viewport := viewport g; errors := errors g ++ [e]; draws := draws g;
     calls := calls g |}.

Definition with_draw (g : GLState) (d : Draw) : GLState :=
  {| driver := driver g; shaders := shaders g; programs := programs g;
     current := current g; buffers := buffers g;
     array_buffer := array_buffer g; attribs := attribs g;
     viewport := viewport g; errors := errors g; draws := draws g ++ [d];
     calls := calls g |}.

Definition called (g : GLState) (c : GLCall) : GLState :=
  {| driver := driver g; shaders := shaders g; programs := programs g;
     current := current g; buffers := buffers g;
     array_buffer := array_buffer g; attribs := attribs g;
     viewport := viewport g; errors := errors g; draws := draws g;
     calls := calls g ++ [c] |}.

(** [l[n] := v]; nothing happens out of range. *)
Fixpoint list_set {A : Type} (l : list A) (n : nat) (v : A) : list A :=
  match l, n with
  | [], _ => []
  | _ :: l', O => v :: l'
  | a :: l', S n' => a :: list_set l' n' v
  end.

(** Update the object at handle [h], or flag INVALID_VALUE. *)
Definition update_shader (g : GLState) (h : nat)
    (f : ShaderObj -> ShaderObj) : GLState :=
  match nth_error (shaders g) h with
  | Some s => with_shaders g (list_set (shaders g) h (f s))
  | None => raise g INVALID_VALUE
  end.

Definition update_program (g : GLState) (h : nat)
    (f : ProgramObj -> ProgramObj) : GLState :=
  match nth_error (programs g) h with
  | Some p => with_programs g (list_set (programs g) h (f p))
  | None => raise g INVALID_VALUE
  end.

(** *** Shader objects *)

Definition createShader (ty : ShaderType) (g : GLState) : nat * GLState :=
  let g := called g (CreateShader ty) in
  (List.length (shaders g),
   with_shaders g (shaders g ++ [{| sh_type := ty; sh_source := "";
                                    sh_compiled := false;
                                    sh_infoLog := "" |}])).

Definition shaderSource (sh : nat) (src : string) (g : GLState)
    : unit * GLState :=
  let g := called g (ShaderSource sh) in
  (tt, update_shader g sh (fun s =>
         {| sh_type := sh_type s; sh_source := src;
            sh_compiled := sh_compiled s; sh_infoLog := sh_infoLog s |})).

Definition compileShader (sh : nat) (g : GLState) : unit * GLState :=
  let g := called g (CompileShader sh) in
  (tt, update_shader g sh (fun s =>
         let (ok, log) := drv_compile (driver g) (sh_type s) (sh_source s) in
         {| sh_type := sh_type s; sh_source := sh_source s;
            sh_compiled := ok; sh_infoLog := log |})).

(** [getShaderParameter(sh, COMPILE_STATUS)]. *)
Definition getShaderParameter_COMPILE_STATUS (sh : nat) (g : GLState)
    : bool * GLState :=
  match nth_error (shaders g) sh with
  | Some s => (sh_compiled s, g)
  | None => (false, raise g INVALID_VALUE)
  end.

Definition getShaderInfoLog (sh : nat) (g : GLState) : string * GLState :=
  match nth_error (shaders g) sh with
  | Some s => (sh_infoLog s, g)
  | None => ("", raise g INVALID_VALUE)
  end.

(** *** Program objects *)

Definition createProgram (g : GLState) : nat * GLState :=
  let g := called g CreateProgram in
  (List.length (programs g),
   with_programs g (programs g ++ [{| pr_attached := []; pr_linked := false;
                                      pr_iResolution := (0%Q, 0%Q);
                                      pr_iTime := 0%Q |}])).

Definition attachShader (p sh : nat) (g : GLState) : unit * GLState :=
  let g := called g (AttachShader p sh) in
  (tt, update_program g p (fun o =>
         {| pr_attached := pr_attached o ++ [sh]; pr_linked := pr_linked o;
            pr_iResolution := pr_iResolution o; pr_iTime := pr_iTime o |})).

(** The compiled source of the attached shader of stage [ty], if any. *)
Definition compiled_stage (g : GLState) (ty : ShaderType) (hs : list nat)
    : option string :=
  let same a b :=
    match a, b with
    | VERTEX_SHADER, VERTEX_SHADER | FRAGMENT_SHADER, FRAGMENT_SHADER => true
    | _, _ => false
    end in
  match filter (fun s => same (sh_type s) ty)
               (flat_map (fun h => match nth_error (shaders g) h with
                                   | Some s => [s]
                                   | None => []
                                   end) hs) with
  | [s] => if sh_compiled s then Some (sh_source s) else None
  | _ => None
  end.

(** Linking succeeds only when a compiled vertex stage and a compiled
    fragment stage are attached and the driver links them. *)
Definition link_status (g : GLState) (hs : list nat) : bool :=
  match compiled_stage g VERTEX_SHADER hs,
        compiled_stage g FRAGMENT_SHADER hs with
  | Some v, Some f => drv_link (driver g) v f
  | _, _ => false
  end.

Definition linkProgram (p : nat) (g : GLState) : unit * GLState :=
  let g := called g (LinkProgram p) in
  (tt, update_program g p (fun o =>
         {| pr_attached := pr_attached o;
            pr_linked := link_status g (pr_attached o);
            pr_iResolution := (0%Q, 0%Q); pr_iTime := 0%Q |})).

Definition is_linked (g : GLState) (p : nat) : bool :=
  match nth_error (programs g) p with
  | Some o => pr_linked o
  | None => false
  end.

(** A program that did not link cannot be made current. *)
Definition useProgram (p : nat) (g : GLState) : unit * GLState :=
  let g := called g (UseProgram p) in
  (tt, if is_linked g p then with_current g (Some p)
       else raise g INVALID_OPERATION).

(** *** Buffers and vertex attributes *)

Definition createBuffer (g : GLState) : nat * GLState :=
  let g := called g CreateBuffer in
  (List.length (buffers g), with_buffers g (buffers g ++ [[]])).

(** [bindBuffer(ARRAY_BUFFER, b)]. *)
Definition bindBuffer (b : nat) (g : GLState) : unit * GLState :=
  let g := called g (BindBuffer b) in
  (tt, match nth_error (buffers g) b with
       | Some _ => with_array_buffer g (Some b)
       | None => raise g INVALID_VALUE
       end).

(** [bufferData(ARRAY_BUFFER, new Float32Array(data), STATIC_DRAW)]. *)
Definition bufferData (data : list Z) (g : GLState) : unit * GLState :=
  let g := called g (BufferData data) in
  (tt, match array_buffer g with
       | Some b => with_buffers g (list_set (buffers g) b data)
       | None => raise g INVALID_OPERATION
       end).

(** -1 for a program that is not linked. *)
Definition getAttribLocation (p : nat) (name : string) (g : GLState)
    : Z * GLState :=
  let g := called g (GetAttribLocation p name) in
  if is_linked g p then (drv_attrib (driver g) name, g)
  else (-1, raise g INVALID_OPERATION).

(** The slot of a [GLuint] index, when there is one. *)
Definition attrib_slot (index : Z) : option nat :=
  if (0 <=? index) && (index <? Z.of_nat MAX_VERTEX_ATTRIBS)
  then Some (Z.to_nat index) else None.

Definition enableVertexAttribArray (index : Z) (g : GLState)
    : unit * GLState :=
  let g := called g (EnableVertexAttribArray index) in
  (tt, match attrib_slot index with
       | Some n =>
           with_attribs g
             (list_set (attribs g) n
                {| at_enabled := true;
                   at_pointer := match nth_error (attribs g) n with
                                 | Some a => at_pointer a
                                 | None => None
                                 end |})
       | None => raise g INVALID_VALUE
       end).

(** [vertexAttribPointer(index, size, FLOAT, false, 0, 0)]. *)
Definition vertexAttribPointer (index size : Z) (g : GLState)
    : unit * GLState :=
  let g := called g (VertexAttribPointer index) in
  (tt, match attrib_slot index, array_buffer g with
       | Some n, Some b =>
           with_attribs g
             (list_set (attribs g) n
                {| at_enabled := match nth_error (attribs g) n with
                                 | Some a => at_enabled a
                                 | None => false
                                 end;
                   at_pointer := Some (b, size) |})
       | Some _, None => raise g INVALID_OPERATION
       | None, _ => raise g INVALID_VALUE
       end).

(** *** Viewport, uniforms and drawing *)

Definition gl_viewport (x y w h : Z) (g : GLState) : unit * GLState :=
  let g := called g (Viewport x y w h) in
  (tt, if (w <? 0) || (h <? 0) then raise g INVALID_VALUE
       else with_viewport g (x, y, w, h)).

(** A uniform location is the uniform's name; [None] is [null]. *)
Definition getUniformLocation (p : nat) (name : string) (g : GLState)
    : option string * GLState :=
  let g := called g (GetUniformLocation p name) in
  if is_linked g p then
    (if drv_uniform (driver g) name then Some name else None, g)
  else (None, raise g INVALID_OPERATION).

(** A [null] location is ignored without error. *)
Definition uniform2f (loc : option string) (x y : Q) (g : GLState)
    : unit * GLState :=
  let g := called g (Uniform2f x y) in
  (tt, match loc, current g with
       | None, _ => g
       | Some name, Some p =>
           if String.eqb name "iResolution" then
             update_program g p (fun o =>
               {| pr_attached := pr_attached o; pr_linked := pr_linked o;
                  pr_iResolution := (x, y); pr_iTime := pr_iTime o |})
           else raise g INVALID_OPERATION
       | Some _, None => raise g INVALID_OPERATION
       end).

Definition uniform1f (loc : option string) (x : Q) (g : GLState)
    : unit * GLState :=
  let g := called g (Uniform1f x) in
  (tt, match loc, current g with
       | None, _ => g
       | Some name, Some p =>
           if String.eqb name "iTime" then
             update_program g p (fun o =>
               {| pr_attached := pr_attached o; pr_linked := pr_linked o;
                  pr_iResolution := pr_iResolution o; pr_iTime := x |})
           else raise g INVALID_OPERATION
       | Some _, None => raise g INVALID_OPERATION
       end).

(** [drawArrays(TRIANGLES, first, count)]: without a current program the
    call is an INVALID_OPERATION and nothing is drawn. *)
Definition drawArrays (first count : Z) (g : GLState) : unit * GLState :=
  let g := called g (DrawArrays first count) in
  (tt, match current g with
       | Some p =>
           match nth_error (programs g) p with
           | Some o =>
               with_draw g {| dr_first := first; dr_count := count;
                              dr_viewport := viewport g;
                              dr_iResolution := pr_iResolution o;
                              dr_iTime := pr_iTime o |}
           | None => raise g INVALID_OPERATION
           end
       | None => raise g INVALID_OPERATION
       end).

(** ** The browser and the module's variables *)

(** A JavaScript variable holding an object reference. *)
Inductive Var (A : Type) : Type :=
| undefined
| null
| obj (a : A).
Arguments undefined {A}.
Arguments null {A}.
Arguments obj {A} a.

(** [!v] is false exactly on objects. *)
Definition truthy {A : Type} (v : Var A) : bool :=
  match v with obj _ => true | _ => false end.

(** The one canvas element and the one context the program refers to. *)
Inductive CanvasRef : Type := shaderCanvas.
Inductive GLRef : Type := webgl_context.

Inductive Exn : Type := TypeError (msg : string).

Inductive ConsoleEntry : Type :=
| ConsoleLog (args : list string)
| ConsoleError (args : list string).

(** The functions of the module, as values handed to the browser. *)
Inductive Callback : Type := fn_initShader | fn_resizeCanvas | fn_render.

Record World : Type := {
  (* let canvas, gl, program; let startTime *)
  var_canvas : Var CanvasRef;
  var_gl : Var GLRef;
  var_program : Var nat;
  startTime : Z;
  (* document and window *)
  has_canvas : bool;           (* is there an element #shaderCanvas? *)
  canvas_width : Z;
  canvas_height : Z;
  webgl_supported : bool;      (* does getContext("webgl") give a context? *)
  gl : GLState;                (* the state of that context *)
  innerWidth : Z;
  innerHeight : Z;
  now : Z;                     (* Date.now(), in milliseconds *)
  console : list ConsoleEntry; (* oldest first *)
  raf : list Callback;         (* pending requestAnimationFrame callbacks *)
  onload : option Callback;
  onresize : option Callback;
  uncaught : list Exn          (* exceptions that escaped a handler *)
}.

Definition set_var_canvas (v : Var CanvasRef) (w : World) : World :=
  {| var_canvas := v; var_gl := var_gl w; var_program := var_program w;
     startTime := startTime w; has_canvas := has_canvas w;
     canvas_width := canvas_width w; canvas_height := canvas_height w;
     webgl_supported := webgl_supported w; gl := gl w;
     innerWidth := innerWidth w; innerHeight := innerHeight w; now := now w;
     console := console w; raf := raf w; onload := onload w;
     onresize := onresize w; uncaught := uncaught w |}.

Definition set_var_gl (v : Var GLRef) (w : World) : World :=
  {| var_canvas := var_canvas w; var_gl := v; var_program := var_program w;
     startTime := startTime w; has_canvas := has_canvas w;
     canvas_width := canvas_width w; canvas_height := canvas_height w;
     webgl_supported := webgl_supported w; gl := gl w;
     innerWidth := innerWidth w; innerHeight := innerHeight w; now := now w;
     console := console w; raf := raf w; onload := onload w;
     onresize := onresize w; uncaught := uncaught w |}.

Definition set_var_program (v : Var nat) (w : World) : World :=
  {| var_canvas := var_canvas w; var_gl := var_gl w; var_program := v;
     startTime := startTime w; has_canvas := has_canvas w;
     canvas_width := canvas_width w; canvas_height := canvas_height w;
     webgl_supported := webgl_supported w; gl := gl w;
     innerWidth := innerWidth w; innerHeight := innerHeight w; now := now w;
     console := console w; raf := raf w; onload := onload w;
     onresize := onresize w; uncaught := uncaught w |}.

Definition set_startTime (v : Z) (w : World) : World :=
  {| var_canvas := var_canvas w; var_gl := var_gl w;
     var_program := var_program w;
     startTime := v; has_canvas := has_canvas w;
     canvas_width := canvas_width w; canvas_height := canvas_height w;
     webgl_supported := webgl_supported w; gl := gl w;
     innerWidth := innerWidth w; innerHeight := innerHeight w; now := now w;
     console := console w; raf := raf w; onload := onload w;
     onresize := onresize w; uncaught := uncaught w |}.

Definition set_canvas_width (v : Z) (w : World) : World :=
  {| var_canvas := var_canvas w; var_gl := var_gl w;
     var_program := var_program w;
     startTime := startTime w; has_canvas := has_canvas w;
     canvas_width := v; canvas_height := canvas_height w;
     webgl_supported := webgl_supported w; gl := gl w;
     innerWidth := innerWidth w; innerHeight := innerHeight w; now := now w;
     console := console w; raf := raf w; onload := onload w;
     onresize := onresize w; uncaught := uncaught w |}.

Definition set_canvas_height (v : Z) (w : World) : World :=
  {| var_canvas := var_canvas w; var_gl := var_gl w;
     var_program := var_program w;
     startTime := startTime w; has_canvas := has_canvas w;
     canvas_width := canvas_width w; canvas_height := v;
     webgl_supported := webgl_supported w; gl := gl w;
     innerWidth := innerWidth w; innerHeight := innerHeight w; now := now w;
     console := console w; raf := raf w; onload := onload w;
     onresize := onresize w; uncaught := uncaught w |}.

Definition set_gl (v : GLState) (w : World) : World :=
  {| var_canvas := var_canvas w; var_gl := var_gl w;
     var_program := var_program w;
     startTime := startTime w; has_canvas := has_canvas w;
     canvas_width := canvas_width w; canvas_height := canvas_height w;
     webgl_supported := webgl_supported w; gl := v;
     innerWidth := innerWidth w; innerHeight := innerHeight w; now := now w;
     console := console w; raf := raf w; onload := onload w;
     onresize := onresize w; uncaught := uncaught w |}.

Definition set_window (iw ih t : Z) (w : World) : World :=
  {| var_canvas := var_canvas w; var_gl := var_gl w;
     var_program := var_program w;
     startTime := startTime w; has_canvas := has_canvas w;
     canvas_width := canvas_width w; canvas_height := canvas_height w;
     webgl_supported := webgl_supported w; gl := gl w;
     innerWidth := iw; innerHeight := ih; now := t;
     console := console w; raf := raf w; onload := onload w;
     onresize := onresize w; uncaught := uncaught w |}.

Definition set_console (v : list ConsoleEntry) (w : World) : World :=
  {| var_canvas := var_canvas w; var_gl := var_gl w;
     var_program := var_program w;
     startTime := startTime w; has_canvas := has_canvas w;
     canvas_width := canvas_width w; canvas_height := canvas_height w;
     webgl_supported := webgl_supported w; gl := gl w;
     innerWidth := innerWidth w; innerHeight := innerHeight w; now := now w;
     console := v; raf := raf w; onload := onload w;
     onresize := onresize w; uncaught := uncaught w |}.

Definition set_raf (v : list Callback) (w : World) : World :=
  {| var_canvas := var_canvas w; var_gl := var_gl w;
     var_program := var_program w;
     startTime := startTime w; has_canvas := has_canvas w;
     canvas_width := canvas_width w; canvas_height := canvas_height w;
     webgl_supported := webgl_supported w; gl := gl w;
     innerWidth := innerWidth w; innerHeight := innerHeight w; now := now w;
     console := console w; raf := v; onload := onload w;
     onresize := onresize w; uncaught := uncaught w |}.

Definition set_handlers (l r : option Callback) (w : World) : World :=
  {| var_canvas := var_canvas w; var_gl := var_gl w;
     var_program := var_program w;
     startTime := startTime w; has_canvas := has_canvas w;
     canvas_width := canvas_width w; canvas_height := canvas_height w;
     webgl_supported := webgl_supported w; gl := gl w;
     innerWidth := innerWidth w; innerHeight := innerHeight w; now := now w;
     console := console w; raf := raf w; onload := l;
     onresize := r; uncaught := uncaught w |}.

Definition set_uncaught (v : list Exn) (w : World) : World :=
  {| var_canvas := var_canvas w; var_gl := var_gl w;
     var_program := var_program w;
     startTime := startTime w; has_canvas := has_canvas w;
     canvas_width := canvas_width w; canvas_height := canvas_height w;
     webgl_supported := webgl_supported w; gl := gl w;
     innerWidth := innerWidth w; innerHeight := innerHeight w; now := now w;
     console := console w; raf := raf w; onload := onload w;
     onresize := onresize w; uncaught := v |}.

(** ** Statements: state passing with exceptions

    Writes made before a [throw] stay made. *)

Inductive Completion (A : Type) : Type :=
| Normal (a : A)
| Throw (e : Exn).
Arguments Normal {A} a.
Arguments Throw {A} e.

Definition JS (A : Type) : Type := World -> Completion A * World.

Definition ret {A : Type} (a : A) : JS A := fun w => (Normal a, w).

Definition throw {A : Type} (e : Exn) : JS A := fun w => (Throw e, w).

(** What follows a statement that completed as [r]: the rest [k] of the
    sequence after a normal completion, nothing after a [throw]. *)
Definition after {A B : Type} (r : Completion A * World) (k : A -> JS B)
    : Completion B * World :=
  match r with
  | (Normal a, w') => k a w'
  | (Throw e, w') => (Throw e, w')
  end.

Definition bind {A B : Type} (m : JS A) (k : A -> JS B) : JS B :=
  fun w => after (m w) k.

Notation "x <- m ;; k" := (bind m (fun x => k))
  (at level 61, m at next level, right associativity).
Notation "m ;; k" := (bind m (fun _ => k))
  (at level 61, right associativity).

Definition get {A : Type} (f : World -> A) : JS A := fun w => (Normal (f w), w).

Definition modify (f : World -> World) : JS unit := fun w => (Normal tt, f w).

(** [document.getElementById(id)]. *)
Definition document_getElementById (id : string) : JS (Var CanvasRef) :=
  present <- get has_canvas ;;
  ret (if present && String.eqb id "shaderCanvas" then obj shaderCanvas
       else null).

(** [canvas.f], for a member [f] of the element: a TypeError unless the
    variable [canvas] holds it. *)
Definition on_canvas {A : Type} (member : string) (f : JS A) : JS A :=
  c <- get var_canvas ;;
  match c with
  | obj shaderCanvas => f
  | _ => throw (TypeError ("canvas." ++ member))
  end.

(** [canvas.getContext(kind)]. *)
Definition canvas_getContext (kind : string) : JS (Var GLRef) :=
  on_canvas "getContext"
    (ok <- get webgl_supported ;;
     ret (if ok && String.eqb kind "webgl" then obj webgl_context else null)).

(** [gl.f(...)], for an entry point [f] of the context: a TypeError unless
    the variable [gl] holds the context. *)
Definition on_gl {A : Type} (member : string) (f : GLState -> A * GLState)
    : JS A :=
  g <- get var_gl ;;
  match g with
  | obj webgl_context =>
      fun w => let (a, s) := f (gl w) in (Normal a, set_gl s w)
  | _ => throw (TypeError ("gl." ++ member))
  end.

(** The lookup of [gl.f] that starts a call [gl.f(...)], before the
    arguments are evaluated. *)
Definition gl_member (member : string) : JS unit :=
  g <- get var_gl ;;
  match g with
  | obj webgl_context => ret tt
  | _ => throw (TypeError ("gl." ++ member))
  end.

(** The value of [program] as a [WebGLProgram] argument. *)
Definition the_program : JS nat :=
  p <- get var_program ;;
  match p with
  | obj h => ret h
  | _ => throw (TypeError "program")
  end.

Definition console_log (args : list string) : JS unit :=
  modify (fun w => set_console (console w ++ [ConsoleLog args]) w).

Definition console_error (args : list string) : JS unit :=
  modify (fun w => set_console (console w ++ [ConsoleError args]) w).

Definition Date_now : JS Z := get now.

Definition requestAnimationFrame (f : Callback) : JS unit :=
  modify (fun w => set_raf (raf w ++ [f]) w).

(** ** [shader.js] *)

Definition vertexShaderSource : string :=
"
attribute vec2 a_position;
void main() {
  gl_Position = vec4(a_position, 0, 1);
}
".

(** The text whose [main] is [GLSL.main]. *)
Definition fragmentShaderSource : string :=
"
precision mediump float;
uniform vec2 iResolution;
uniform float iTime;

void main() {
  vec2 uv = gl_FragCoord.xy / iResolution.xy;
  uv -= 0.5;

  vec3 col = vec3(0.05, 0.05, 0.1);

  for(int i=0;i<6;i++){
    float t = float(i)/6.0;
    float speed = 1.0 + t;
    
    // Vertical wave (moves along y-axis)
    float wave = sin(iTime * speed * 0.2 + uv.y * 8.0) * 0.2;
    
    // Thin line
    float line = 1.0 - smoothstep(0.003, 0.008, abs(uv.x - wave));
    
    // Add blur glow around the line
    float blur = exp(-abs(uv.x - wave) * 20.0) * 0.3;
    
    col += (line + blur) * vec3(0.2+t, 0.3, 0.8);
  }

  gl_FragColor = vec4(col, 1.0);
}
".

(** [function resizeCanvas()] *)
Definition resizeCanvas : JS unit :=
  iw <- get innerWidth ;;
  on_canvas "width" (modify (set_canvas_width iw)) ;;
  ih <- get innerHeight ;;
  on_canvas "height" (modify (set_canvas_height ih)) ;;
  gl_member "viewport" ;;
  cw <- on_canvas "width" (get canvas_width) ;;
  ch <- on_canvas "height" (get canvas_height) ;;
  on_gl "viewport" (gl_viewport 0 0 cw ch).

(** [function render()] *)
Definition render : JS unit :=
  t <- Date_now ;;
  t0 <- get startTime ;;
  let time : Q := Qmake (t - t0) 1000 in    (* (Date.now()-startTime)/1000 *)
  gl_member "getUniformLocation" ;;
  p <- the_program ;;
  resLoc <- on_gl "getUniformLocation" (getUniformLocation p "iResolution") ;;
  gl_member "getUniformLocation" ;;
  p <- the_program ;;
  timeLoc <- on_gl "getUniformLocation" (getUniformLocation p "iTime") ;;
  gl_member "uniform2f" ;;
  cw <- on_canvas "width" (get canvas_width) ;;
  ch <- on_canvas "height" (get canvas_height) ;;
  on_gl "uniform2f" (uniform2f resLoc (inject_Z cw) (inject_Z ch)) ;;
  on_gl "uniform1f" (uniform1f timeLoc time) ;;
  on_gl "drawArrays" (drawArrays 0 6) ;;
  requestAnimationFrame fn_render.

(** [function initShader()] *)
Definition initShader : JS unit :=
  c <- document_getElementById "shaderCanvas" ;;
  modify (set_var_canvas c) ;;
  g <- canvas_getContext "webgl" ;;
  modify (set_var_gl g) ;;
  g <- get var_gl ;;
  if negb (truthy g) then
    console_log ["WebGL not supported"]
  else
    vs <- on_gl "createShader" (createShader VERTEX_SHADER) ;;
    on_gl "shaderSource" (shaderSource vs vertexShaderSource) ;;
    on_gl "compileShader" (compileShader vs) ;;
    ok <- on_gl "getShaderParameter" (getShaderParameter_COMPILE_STATUS vs) ;;
    (if negb ok then
       log <- on_gl "getShaderInfoLog" (getShaderInfoLog vs) ;;
       console_error ["Vertex shader error:"; log]
     else ret tt) ;;
    fs <- on_gl "createShader" (createShader FRAGMENT_SHADER) ;;
    on_gl "shaderSource" (shaderSource fs fragmentShaderSource) ;;
    on_gl "compileShader" (compileShader fs) ;;
    ok <- on_gl "getShaderParameter" (getShaderParameter_COMPILE_STATUS fs) ;;
    (if negb ok then
       log <- on_gl "getShaderInfoLog" (getShaderInfoLog fs) ;;
       console_error ["Fragment shader error:"; log]
     else ret tt) ;;
    h <- on_gl "createProgram" createProgram ;;
    modify (set_var_program (obj h)) ;;
    gl_member "attachShader" ;;
    p <- the_program ;;
    on_gl "attachShader" (attachShader p vs) ;;
    gl_member "attachShader" ;;
    p <- the_program ;;
    on_gl "attachShader" (attachShader p fs) ;;
    gl_member "linkProgram" ;;
    p <- the_program ;;
    on_gl "linkProgram" (linkProgram p) ;;
    gl_member "useProgram" ;;
    p <- the_program ;;
    on_gl "useProgram" (useProgram p) ;;
    positionBuffer <- on_gl "createBuffer" createBuffer ;;
    on_gl "bindBuffer" (bindBuffer positionBuffer) ;;
    on_gl "bufferData" (bufferData [-1; -1; 1; -1; -1; 1;
                                    -1; 1; 1; -1; 1; 1]) ;;
    gl_member "getAttribLocation" ;;
    p <- the_program ;;
    positionLocation <-
      on_gl "getAttribLocation" (getAttribLocation p "a_position") ;;
    on_gl "enableVertexAttribArray"
          (enableVertexAttribArray positionLocation) ;;
    on_gl "vertexAttribPointer" (vertexAttribPointer positionLocation 2) ;;
    resizeCanvas ;;
    render.

(** ** The page

    The script body runs once; afterwards the browser calls the module's
    functions back on events. *)

(** [let startTime = Date.now(); ...;
     window.onload = initShader; window.onresize = resizeCanvas;] *)
Definition script : JS unit :=
  t <- Date_now ;;
  modify (set_startTime t) ;;
  modify (set_handlers (Some fn_initShader) (Some fn_resizeCanvas)).

Definition call (f : Callback) : JS unit :=
  match f with
  | fn_initShader => initShader
  | fn_resizeCanvas => resizeCanvas
  | fn_render => render
  end.

(** The browser running a callback: an exception that escapes it is
    reported and the page goes on. *)
Definition run_callback (f : Callback) (w : World) : World :=
  match call f w with
  | (Normal _, w') => w'
  | (Throw e, w') => set_uncaught (uncaught w' ++ [e]) w'
  end.

Inductive Event : Type :=
| Load (t : Z)                 (* the page has loaded, at time t *)
| Resize (t : Z) (iw ih : Z)   (* the window now measures iw x ih *)
| AnimationFrame (t : Z).      (* the display is about to repaint *)

Definition dispatch (w : World) (e : Event) : World :=
  match e with
  | Load t =>
      let w := set_window (innerWidth w) (innerHeight w) t w in
      match onload w with
      | Some f => run_callback f w
      | None => w
      end
  | Resize t iw ih =>
      let w := set_window iw ih t w in
      match onresize w with
      | Some f => run_callback f w
      | None => w
      end
  | AnimationFrame t =>
      let w := set_window (innerWidth w) (innerHeight w) t w in
      let pending := raf w in
      fold_left (fun w f => run_callback f w) pending (set_raf [] w)
  end.

Definition run (w : World) (es : list Event) : World :=
  fold_left dispatch es w.

(** The page before the script runs: a window of [iw] x [ih] at time [t],
    a canvas of the default size if there is one. *)
Definition page (d : Driver) (canvas webgl : bool) (iw ih t : Z) : World :=
  {| var_canvas := undefined; var_gl := undefined; var_program := undefined;
     startTime := 0; has_canvas := canvas;
     canvas_width := 300; canvas_height := 150;
     webgl_supported := webgl; gl := gl_initial d 300 150;
     innerWidth := iw; innerHeight := ih; now := t;
     console := []; raf := []; onload := None; onresize := None;
     uncaught := [] |}.

(** The page once the script has run. *)
Definition boot (d : Driver) (canvas webgl : bool) (iw ih t : Z) : World :=
  snd (script (page d canvas webgl iw ih t)).

(** ** Observations *)

(** The values handed to [uniform1f], oldest first: the [time] of each
    frame. *)
Fixpoint times_of (cs : list GLCall) : list Q :=
  match cs with
  | [] => []
  | Uniform1f x :: cs' => x :: times_of cs'
  | _ :: cs' => times_of cs'
  end.

Definition elapsed_times (w : World) : list Q := times_of (calls (gl w)).

(** The time [render] computes when the clock reads [t]. *)
Definition elapsed (start t : Z) : Q := Qmake (t - start) 1000.

(** The source text and the console label of a stage in [initShader]. *)
Definition stage_source (ty : ShaderType) : string :=
  match ty with
  | VERTEX_SHADER => vertexShaderSource
  | FRAGMENT_SHADER => fragmentShaderSource
  end.

Definition stage_label (ty : ShaderType) : string :=
  match ty with
  | VERTEX_SHADER => "Vertex shader error:"
  | FRAGMENT_SHADER => "Fragment shader error:"
  end.

(** What the console receives for a stage: nothing when it compiles, the
    label and the info log when it does not. *)
Definition diagnostic (d : Driver) (ty : ShaderType) : list ConsoleEntry :=
  let (ok, log) := drv_compile d ty (stage_source ty) in
  if ok then [] else [ConsoleError [stage_label ty; log]].

(** Does the program of [initShader] link under driver [d]? *)
Definition links (d : Driver) : bool :=
  fst (drv_compile d VERTEX_SHADER vertexShaderSource)
  && fst (drv_compile d FRAGMENT_SHADER fragmentShaderSource)
  && drv_link d vertexShaderSource fragmentShaderSource.

(** The context calls of [initShader] up to and including [resizeCanvas],
    for a canvas sized [cw] x [ch]. *)
Definition setup_calls (d : Driver) (cw ch : Z) : list GLCall :=
  let loc := if links d then drv_attrib d "a_position" else -1 in
  [CreateShader VERTEX_SHADER; ShaderSource 0; CompileShader 0;
   CreateShader FRAGMENT_SHADER; ShaderSource 1; CompileShader 1;
   CreateProgram; AttachShader 0 0; AttachShader 0 1;
   LinkProgram 0; UseProgram 0;
   CreateBuffer; BindBuffer 0;
   BufferData [-1; -1; 1; -1; -1; 1; -1; 1; 1; -1; 1; 1];
   GetAttribLocation 0 "a_position"; EnableVertexAttribArray loc;
   VertexAttribPointer loc; Viewport 0 0 cw ch].

(** The context calls of one [render]. *)
Definition frame_calls (p : nat) (cw ch : Z) (time : Q) : list GLCall :=
  [GetUniformLocation p "iResolution"; GetUniformLocation p "iTime";
   Uniform2f (inject_Z cw) (inject_Z ch); Uniform1f time; DrawArrays 0 6].

(** Two drivers to run the page with: one that accepts every shader, one
    that rejects the fragment stage with the info log [log]. *)
Definition accepting : Driver :=
  {| drv_compile := fun _ _ => (true, "");
     drv_link := fun _ _ => true;
     drv_attrib := fun _ => 0;
     drv_uniform := fun _ => true |}.

Definition rejecting_fragment (log : string) : Driver :=
  {| drv_compile := fun ty _ => match ty with
                                | VERTEX_SHADER => (true, "")
                                | FRAGMENT_SHADER => (false, log)
                                end;
     drv_link := fun _ _ => true;
     drv_attrib := fun _ => 0;
     drv_uniform := fun _ => true |}.

(** The module after a load event that found its canvas and a context:
    the three variables hold their objects, one [render] is pending and
    nothing has been thrown. *)
Definition running (ts : Z) (w : World) : Prop :=
  var_canvas w = obj shaderCanvas /\
  var_gl w = obj webgl_context /\
  var_program w = obj 0%nat /\
  startTime w = ts /\
  raf w = [fn_render] /\
  uncaught w = [].

(** Is every reading at least the one before it? *)
Fixpoint nondecreasing (l : list Z) : bool :=
  match l with
  | a :: (b :: _) as l' => (a <=? b) && nondecreasing l'
  | _ => true
  end.

(** ** Events after the load event *)

(** The array [initShader] uploads with [bufferData]. *)
Definition quad : list Z := [-1; -1; 1; -1; -1; 1; -1; 1; 1; -1; 1; 1].

(** A driver under which the setup of [initShader] meets no GL error: the
    two stages compile and link, [a_position] has a slot, and the two
    uniforms are active. *)
Definition capable (d : Driver) : bool :=
  links d
  && match attrib_slot (drv_attrib d "a_position") with
     | Some _ => true
     | None => false
     end
  && drv_uniform d "iResolution"
  && drv_uniform d "iTime".

(** Resize and animation-frame events only. *)
Definition no_load (es : list Event) : bool :=
  forallb (fun e => match e with Load _ => false | _ => true end) es.

(** No resize event reports a negative window size. *)
Definition sizes_ok (es : list Event) : bool :=
  forallb (fun e => match e with
                    | Resize _ iw ih => (0 <=? iw) && (0 <=? ih)
                    | _ => true
                    end) es.

(** The clock readings of the animation frames among the events. *)
Fixpoint frame_times (es : list Event) : list Z :=
  match es with
  | [] => []
  | AnimationFrame t :: es' => t :: frame_times es'
  | _ :: es' => frame_times es'
  end.

(** The sizes of the resize events among the events. *)
Fixpoint resize_sizes (es : list Event) : list (Z * Z) :=
  match es with
  | [] => []
  | Resize _ iw ih :: es' => (iw, ih) :: resize_sizes es'
  | _ :: es' => resize_sizes es'
  end.

(** The window size after the events, from [size] before them. *)
Definition final_size (size : Z * Z) (es : list Event) : Z * Z :=
  last (resize_sizes es) size.

(** The draw of one frame on a canvas of [size] at elapsed time [time]:
    the six vertices, a viewport that is the canvas, and [iResolution]
    the size of the canvas. *)
Definition frame_draw (size : Z * Z) (time : Q) : Draw :=
  {| dr_first := 0; dr_count := 6;
     dr_viewport := (0, 0, fst size, snd size);
     dr_iResolution := (inject_Z (fst size), inject_Z (snd size));
     dr_iTime := time |}.

(** The draws of the animation frames among the events, each on the
    canvas as the latest resize before it left it; [size] is the canvas
    before the events. *)
Fixpoint frames_drawn (ts : Z) (size : Z * Z) (es : list Event)
    : list Draw :=
  match es with
  | [] => []
  | AnimationFrame t :: es' =>
      frame_draw size (elapsed ts t) :: frames_drawn ts size es'
  | Resize _ iw ih :: es' => frames_drawn ts (iw, ih) es'
  | Load _ :: es' => frames_drawn ts size es'
  end.

(** A module that runs without GL errors: it is [running], the program is
    linked and current, its two uniforms are active, and the viewport is
    the canvas. *)
Definition healthy (ts : Z) (w : World) : Prop :=
  running ts w /\
  errors (gl w) = [] /\
  current (gl w) = Some 0%nat /\
  is_linked (gl w) 0 = true /\
  drv_uniform (driver (gl w)) "iResolution" = true /\
  drv_uniform (driver (gl w)) "iTime" = true /\
  viewport (gl w) = (0, 0, canvas_width w, canvas_height w).

(** What the script sets once and nothing reassigns: the start time and
    the two handlers. *)
Definition fixtures (w : World) : Z * option Callback * option Callback :=
  (startTime w, onload w, onresize w).

(** The statement [m] leaves the observation [f] of the page as it
    found it, however it completes. *)
Definition preserves {A X : Type} (f : World -> X) (m : JS A) : Prop :=
  forall w : World, f (snd (m w)) = f w.

(** Where the picture goes: the size of the canvas, the viewport and the
    program in use. *)
Definition surface (w : World) : Z * Z * (Z * Z * Z * Z) * option nat :=
  (canvas_width w, canvas_height w, viewport (gl w), current (gl w)).

(** What has been shown and what is scheduled: the frames drawn, the
    programs with their uniforms, the pending callbacks, the console. *)
Definition output (w : World)
    : list Draw * list ProgramObj * list Callback * list ConsoleEntry :=
  (draws (gl w), programs (gl w), raf w, console w).

(** The module on a page without WebGL, after the load event: it holds
    the canvas but no context, and it has logged the failure. *)
Definition contextless (w : World) : Prop :=
  var_canvas w = obj shaderCanvas /\
  var_gl w = null /\
  console w = [ConsoleLog ["WebGL not supported"]] /\
  calls (gl w) = [] /\
  raf w = [] /\
  onresize w = Some fn_resizeCanvas.

End Host.

(* ================================================================== *)
(** * The geometry of the draw call *)
(* ================================================================== *)

Module Quad.

Local Open Scope R_scope.

(** The vertices of a buffer read two floats at a time, as
    [vertexAttribPointer(loc, 2, FLOAT, false, 0, 0)] sets it up. *)
Fixpoint vertices (data : list Z) : list GLSL.vec2 :=
  match data with
  | x :: y :: rest => GLSL.Vec2 (IZR x) (IZR y) :: vertices rest
  | _ => []
  end.

(** The triangles of [drawArrays(TRIANGLES, 0, count)]: the clip-space
    positions the vertex stage gives to each three vertices in turn. *)
Fixpoint triangles (vs : list GLSL.vec2)
    : list (GLSL.vec4 * GLSL.vec4 * GLSL.vec4) :=
  match vs with
  | a :: b :: c :: rest =>
      (GLSL.vertex_main a, GLSL.vertex_main b, GLSL.vertex_main c)
      :: triangles rest
  | _ => []
  end.

(** The position of a clip-space vertex after the division by [w]. *)
Definition ndc (v : GLSL.vec4) : R * R :=
  (GLSL.x4 v / GLSL.w4 v, GLSL.y4 v / GLSL.w4 v).

(** Twice the signed area of the triangle [a b p]. *)
Definition edge (a b p : R * R) : R :=
  (fst b - fst a) * (snd p - snd a) - (snd b - snd a) * (fst p - fst a).

(** [p] is inside or on the border of the triangle: it is on the same
    side of the three edges. *)
Definition covers (t : GLSL.vec4 * GLSL.vec4 * GLSL.vec4) (p : R * R)
    : Prop :=
  let '(a, b, c) := t in
  (0 <= edge (ndc a) (ndc b) p /\ 0 <= edge (ndc b) (ndc c) p /\
   0 <= edge (ndc c) (ndc a) p) \/
  (edge (ndc a) (ndc b) p <= 0 /\ edge (ndc b) (ndc c) p <= 0 /\
   edge (ndc c) (ndc a) p <= 0).

End Quad.

(* ================================================================== *)
(** * Part III: properties of the fragment stage *)
(* ================================================================== *)

Section FragmentStage.

Import GLSL.
Local Open Scope R_scope.

(** ** The loop runs its six iterations *)

Lemma for_loop_six {A : Type} (body : Z -> A -> A) (acc : A) :
  for_loop 7 0 6 body acc
  = body 5%Z (body 4%Z (body 3%Z (body 2%Z (body 1%Z (body 0%Z acc))))).
Proof. reflexivity. Qed.

(** More fuel than the seven tests of [i < 6] changes nothing. *)
Lemma for_loop_fuel {A : Type} (body : Z -> A -> A) (acc : A) (extra : nat) :
  for_loop (7 + extra) 0 6 body acc = for_loop 7 0 6 body acc.
Proof. reflexivity. Qed.

(** ** [clamp] and [smoothstep] *)

Lemma clamp_unit_range (x : R) : 0 <= clamp x 0 1 <= 1.
Proof.
  unfold clamp, Rmin, Rmax.
  destruct (Rle_dec x 0); destruct (Rle_dec _ 1); lra.
Qed.

Lemma clamp_below (x : R) : x <= 0 -> clamp x 0 1 = 0.
Proof.
  intros Hx. unfold clamp, Rmin, Rmax.
  destruct (Rle_dec x 0); destruct (Rle_dec _ 1); lra.
Qed.

Lemma clamp_above (x : R) : 1 <= x -> clamp x 0 1 = 1.
Proof.
  intros Hx. unfold clamp, Rmin, Rmax.
  destruct (Rle_dec x 0); destruct (Rle_dec _ 1); lra.
Qed.

Lemma clamp_inside (x : R) : 0 <= x <= 1 -> clamp x 0 1 = x.
Proof.
  intros Hx. unfold clamp, Rmin, Rmax.
  destruct (Rle_dec x 0); destruct (Rle_dec _ 1); lra.
Qed.

(** The position of [x] between two ordered edges. *)
Lemma ratio_sign (edge0 edge1 x : R) :
  edge0 < edge1 ->
  (x <= edge0 -> (x - edge0) / (edge1 - edge0) <= 0) /\
  (edge1 <= x -> 1 <= (x - edge0) / (edge1 - edge0)) /\
  (edge0 <= x <= edge1 -> 0 <= (x - edge0) / (edge1 - edge0) <= 1).
Proof.
  intros He.
  assert (Hd : 0 < edge1 - edge0) by lra.
  assert (Hi : 0 < / (edge1 - edge0)) by (apply Rinv_0_lt_compat; exact Hd).
  assert (H1 : (edge1 - edge0) * / (edge1 - edge0) = 1)
    by (apply Rinv_r; lra).
  unfold Rdiv. repeat split; intros; nra.
Qed.

Lemma smoothstep_below (edge0 edge1 x : R) :
  edge0 < edge1 -> x <= edge0 -> smoothstep edge0 edge1 x = 0.
Proof.
  intros He Hx. unfold smoothstep.
  rewrite clamp_below by (apply (ratio_sign edge0 edge1 x He); exact Hx).
  ring.
Qed.

Lemma smoothstep_above (edge0 edge1 x : R) :
  edge0 < edge1 -> edge1 <= x -> smoothstep edge0 edge1 x = 1.
Proof.
  intros He Hx. unfold smoothstep.
  rewrite clamp_above by (apply (ratio_sign edge0 edge1 x He); exact Hx).
  ring.
Qed.

Lemma smoothstep_range (edge0 edge1 x : R) :
  0 <= smoothstep edge0 edge1 x <= 1.
Proof.
  unfold smoothstep.
  pose proof (clamp_unit_range ((x - edge0) / (edge1 - edge0))) as Hc.
  set (t := clamp _ 0 1) in *.
  split.
  - assert (0 <= t * t) by nra. nra.
  - assert (H : 1 - t * t * (3 - 2 * t) = (1 - t) * (1 - t) * (1 + 2 * t))
      by ring.
    assert (0 <= (1 - t) * (1 - t)) by nra.
    assert (0 <= (1 - t) * (1 - t) * (1 + 2 * t)) by nra.
    lra.
Qed.

(** The built-in agrees with the three-case reading of the glossary. *)
Lemma smoothstep_spec (edge0 edge1 x : R) :
  edge0 < edge1 ->
  smoothstep edge0 edge1 x = spec_smooth_interpolate x edge0 edge1.
Proof.
  intros He. unfold spec_smooth_interpolate.
  destruct (Rle_dec x edge0) as [Hlo | Hlo].
  - apply smoothstep_below; assumption.
  - destruct (Rle_dec edge1 x) as [Hhi | Hhi].
    + apply smoothstep_above; assumption.
    + unfold smoothstep. cbv zeta.
      rewrite clamp_inside
        by (apply (ratio_sign edge0 edge1 x He); lra).
      reflexivity.
Qed.

Lemma edges_ordered : 0.003 < 0.008.
Proof. lra. Qed.

(** ** The terms of one iteration *)

Lemma line_range (iTime : R) (uv : vec2) (i : Z) :
  0 <= line iTime uv i <= 1.
Proof.
  unfold line.
  pose proof (smoothstep_range 0.003 0.008
                (Rabs (x2 uv - wave iTime uv i))).
  lra.
Qed.

(** At [iTime = 0] on the row [uv.y = 0] the waves are all at 0. *)
Lemma wave_origin (x : R) (i : Z) : wave 0 (Vec2 x 0) i = 0.
Proof.
  unfold wave. cbn [y2].
  replace (0 * speed_of i * 0.2 + 0 * 8) with 0 by ring.
  rewrite sin_0. ring.
Qed.

(** ** C5 *)

(** C5. In every iteration of the loop, whatever [iTime] and [uv] are: if
    the distance [abs(uv.x - wave)] is exactly 0.003 then [line] is 1.0,
    which is the largest value [line] takes; and if the distance is at
    least 0.008 then [line] is exactly 0. *)
Theorem line_boundary (iTime : R) (uv : vec2) (i : Z) :
  (Rabs (x2 uv - wave iTime uv i) = 0.003 -> line iTime uv i = 1) /\
  (0.008 <= Rabs (x2 uv - wave iTime uv i) -> line iTime uv i = 0) /\
  (forall iTime' uv' i', line iTime' uv' i' <= 1).
Proof.
  split; [| split].
  - intros Hd. unfold line. rewrite Hd.
    rewrite (smoothstep_below _ _ _ edges_ordered) by lra. ring.
  - intros Hd. unfold line.
    rewrite (smoothstep_above _ _ _ edges_ordered) by exact Hd. ring.
  - intros. apply line_range.
Qed.

Lemma line_boundary_witness :
  line 0 (Vec2 0.003 0) 0 = 1 /\ line 0 (Vec2 0.5 0) 0 = 0.
Proof.
  split.
  - apply (line_boundary 0 (Vec2 0.003 0) 0).
    rewrite wave_origin. cbn [x2].
    replace (0.003 - 0) with 0.003 by ring.
    apply Rabs_right. lra.
  - apply (line_boundary 0 (Vec2 0.5 0) 0).
    rewrite wave_origin. cbn [x2].
    replace (0.5 - 0) with 0.5 by ring.
    rewrite Rabs_right by lra. lra.
Defined.


(** ** C4 *)

Lemma line_origin (i : Z) : line 0 (Vec2 0 0) i = 1.
Proof.
  unfold line. rewrite wave_origin. cbn [x2].
  replace (0 - 0) with 0 by ring. rewrite Rabs_R0.
  rewrite (smoothstep_below _ _ _ edges_ordered) by lra. ring.
Qed.

Lemma blur_origin (i : Z) : blur 0 (Vec2 0 0) i = 0.3.
Proof.
  unfold blur. rewrite wave_origin. cbn [x2].
  replace (- Rabs (0 - 0) * 20) with 0
    by (replace (0 - 0) with 0 by ring; rewrite Rabs_R0; ring).
  rewrite exp_0. ring.
Qed.

Lemma vec3_eq (a b c a' b' c' : R) :
  a = a' -> b = b' -> c = c' -> Vec3 a b c = Vec3 a' b' c'.
Proof. intros -> -> ->. reflexivity. Qed.

Lemma vec4_eq (a b c d a' b' c' d' : R) :
  a = a' -> b = b' -> c = c' -> d = d' -> Vec4 a b c d = Vec4 a' b' c' d'.
Proof. intros -> -> -> ->. reflexivity. Qed.

(** Expose the components of a vector expression. *)
Ltac vec_simpl :=
  unfold rgb, vec4_of, sum3, xy, div2, sub2s;
  cbn [map seq fold_right];
  unfold add3, scale3;
  cbn [r3 g3 b3 x2 y2 x4 y4 z4 w4].

(** C4. At [uv = (0,0)] and [iTime = 0], every iteration [i] has
    [wave = 0], distance 0, [line = 1] and [blur = 0.3], so that it adds
    [1.3 * (0.2 + i/6, 0.3, 0.8)]; the colour written is the base colour
    (0.05, 0.05, 0.10) plus the sum of these for i = 0..5, which is
    (4.86, 2.39, 6.34), with alpha 1. *)
Theorem origin_scenario :
  (forall i : Z,
      wave 0 (Vec2 0 0) i = 0 /\
      Rabs (x2 (Vec2 0 0) - wave 0 (Vec2 0 0) i) = 0 /\
      line 0 (Vec2 0 0) i = 1 /\
      blur 0 (Vec2 0 0) i = 0.3 /\
      (forall col,
          loop_body 0 (Vec2 0 0) i col
          = add3 col (scale3 1.3 (Vec3 (0.2 + IZR i / 6) 0.3 0.8)))) /\
  rgb (shade 0 (Vec2 0 0))
  = add3 (Vec3 0.05 0.05 0.1)
         (sum3 (map (fun i => scale3 1.3 (Vec3 (0.2 + INR i / 6) 0.3 0.8))
                    (seq 0 6))) /\
  shade 0 (Vec2 0 0) = Vec4 4.86 2.39 6.34 1.
Proof.
  assert (Hbody : forall i col,
             loop_body 0 (Vec2 0 0) i col
             = add3 col (scale3 1.3 (Vec3 (0.2 + IZR i / 6) 0.3 0.8))).
  { intros i col. unfold loop_body.
    rewrite line_origin, blur_origin. unfold t_of.
    replace (1 + 0.3) with 1.3 by lra. reflexivity. }
  split; [| split].
  - intros i. repeat split.
    + apply wave_origin.
    + rewrite wave_origin. cbn [x2].
      replace (0 - 0) with 0 by ring. apply Rabs_R0.
    + apply line_origin.
    + apply blur_origin.
    + intros col. apply Hbody.
  - unfold shade. rewrite for_loop_six. rewrite !Hbody.
    vec_simpl. apply vec3_eq; simpl INR; lra.
  - unfold shade. rewrite for_loop_six. rewrite !Hbody.
    vec_simpl. apply vec4_eq; lra.
Qed.


(** ** C1 *)

(** One iteration adds the term the specification describes. *)
Lemma loop_body_spec (iTime : R) (uv : vec2) (i : nat) (col : vec3) :
  loop_body iTime uv (Z.of_nat i) col = add3 col (spec_term iTime uv i).
Proof.
  unfold loop_body, spec_term, line, blur, wave, speed_of, t_of.
  cbv zeta.
  rewrite (smoothstep_spec _ _ _ edges_ordered).
  rewrite <- INR_IZR_INZ.
  set (w := sin (iTime * (1 + INR i / 6) * 0.2 + y2 uv * 8) * 0.2).
  replace (- Rabs (x2 uv - w) * 20) with (- (Rabs (x2 uv - w) * 20)) by ring.
  reflexivity.
Qed.

(** [main] computes [uv] as the specification does and shades it. *)
Lemma main_shade (gl_FragCoord : vec4) (u : Uniforms) :
  main gl_FragCoord u
  = shade (iTime u) (spec_uv (xy gl_FragCoord) (iResolution u)).
Proof. reflexivity. Qed.

(** C1. For every pixel position, resolution and time, the colour [main]
    writes is the one the specification defines: with [uv] the position
    divided by the resolution minus 0.5, the base colour
    (0.05, 0.05, 0.10) plus the sum over i = 0..5 of
    [(line + glow) * (0.2+f, 0.3, 0.8)], and alpha 1.0. *)
Theorem main_refines_spec (gl_FragCoord : vec4) (u : Uniforms) :
  main gl_FragCoord u
  = spec_fragment (xy gl_FragCoord) (iResolution u) (iTime u).
Proof.
  rewrite main_shade. unfold spec_fragment, spec_color.
  set (uv := spec_uv _ _). set (t := iTime u).
  unfold shade. rewrite for_loop_six.
  change 0%Z with (Z.of_nat 0). change 1%Z with (Z.of_nat 1).
  change 2%Z with (Z.of_nat 2). change 3%Z with (Z.of_nat 3).
  change 4%Z with (Z.of_nat 4). change 5%Z with (Z.of_nat 5).
  rewrite !loop_body_spec.
  vec_simpl. apply vec4_eq; ring.
Qed.

End FragmentStage.

(* ================================================================== *)
(** * Part IV: properties of the host program *)
(* ================================================================== *)

Section HostProgram.

Import Host.
Local Open Scope Z_scope.

(** ** Symbolic execution of statements *)

(** Evaluation of a statement on a page built by [boot]: lists are
    concrete; the driver's answers and the tests on the window size stay
    symbolic. *)
Ltac js_eval_boot t :=
  eval cbv -[vertexShaderSource fragmentShaderSource
             Z.ltb Z.sub orb attrib_slot] in t.

(** Evaluation of a statement on an arbitrary state. *)
Ltac js_eval_any t :=
  eval cbv -[nth_error list_set app Z.ltb Z.sub orb] in t.

(** Run the first statement of the sequence under execution. *)
Ltac js_step_with ev :=
  lazymatch goal with
  | |- context [(if ?b then ?x else ?y) ?w] =>
      let b' := eval cbv in b in
      lazymatch b' with
      | true => change ((if b then x else y) w) with (x w)
      | false => change ((if b then x else y) w) with (y w)
      end
  | |- context [bind ?m ?k ?w] =>
      let res := ev (m w) in
      change (bind m k w) with (after res k);
      cbv beta iota delta [after]
  end.

(** Split on an answer of the driver, or on the test of [gl_viewport], as
    soon as the state holds it. *)
Ltac js_case :=
  match goal with
  | |- context [let (_, _) := ?p in _] => destruct p as [[] ?] eqn:?
  | |- context [if ?f vertexShaderSource fragmentShaderSource
                then _ else _] =>
      destruct (f vertexShaderSource fragmentShaderSource) eqn:?
  | |- context [attrib_slot (-1)] =>
      change (attrib_slot (-1)) with (@None nat)
  | |- context [match attrib_slot ?z with _ => _ end] =>
      destruct (attrib_slot z)
  | |- context [if (?a <? 0) || (?b <? 0) then _ else _] =>
      destruct ((a <? 0) || (b <? 0))
  | |- context [if ?f "iResolution"%string then _ else _] =>
      destruct (f "iResolution"%string)
  | |- context [if ?f "iTime"%string then _ else _] =>
      destruct (f "iTime"%string)
  end.

(** Split on the innermost test the state cannot decide. *)
Ltac js_split :=
  match goal with
  | |- context [match ?x with _ => _ end] =>
      lazymatch x with
      | context [match _ with _ => _ end] => fail
      | _ => destruct x eqn:?; cbv beta iota delta [after]
      end
  end.

(** ** The load event on a page with WebGL *)

(** [initShader] on the page as the script left it, whatever the driver
    answers: it returns normally, holds its three objects, has logged the
    info log of each stage that failed to compile, has made every context
    call of the setup and of one frame, and has requested the next frame.
    When the program does not link, no program is current and nothing was
    drawn. *)
Lemma initShader_runs (d : Driver) (iw ih ts t : Z) :
  forall r, initShader (set_window iw ih t (boot d true true iw ih ts)) = r ->
  fst r = Normal tt /\
  var_canvas (snd r) = obj shaderCanvas /\
  var_gl (snd r) = obj webgl_context /\
  var_program (snd r) = obj 0%nat /\
  startTime (snd r) = ts /\
  canvas_width (snd r) = iw /\
  canvas_height (snd r) = ih /\
  console (snd r)
  = diagnostic d VERTEX_SHADER ++ diagnostic d FRAGMENT_SHADER /\
  calls (gl (snd r))
  = setup_calls d iw ih ++ frame_calls 0 iw ih (elapsed ts t) /\
  raf (snd r) = [fn_render] /\
  uncaught (snd r) = [] /\
  (links d = false ->
   current (gl (snd r)) = None /\ draws (gl (snd r)) = []).
Proof.
  destruct d as [cmp lnk att uni].
  unfold initShader.
  repeat (first [js_case | js_step_with js_eval_boot]).
  all: unfold render.
  all: repeat (first [js_case | js_step_with js_eval_boot]).
  all: intros r <-;
    cbv beta iota delta [diagnostic setup_calls links stage_source stage_label
                         drv_compile drv_link drv_attrib drv_uniform];
    repeat match goal with H : _ = _ |- _ => rewrite H; clear H end;
    cbv -[vertexShaderSource fragmentShaderSource
          Z.ltb Z.sub orb attrib_slot];
    repeat split; try easy.
Qed.

(** The same, seen from the load event. *)
Lemma load_running (d : Driver) (iw ih ts t : Z) :
  let w := dispatch (boot d true true iw ih ts) (Load t) in
  running ts w /\
  canvas_width w = iw /\
  canvas_height w = ih /\
  console w = diagnostic d VERTEX_SHADER ++ diagnostic d FRAGMENT_SHADER /\
  calls (gl w)
  = setup_calls d iw ih ++ frame_calls 0 iw ih (elapsed ts t) /\
  (links d = false -> current (gl w) = None /\ draws (gl w) = []).
Proof.
  pose proof (initShader_runs d iw ih ts t _ eq_refl) as H.
  change (dispatch (boot d true true iw ih ts) (Load t))
    with (match initShader (set_window iw ih t (boot d true true iw ih ts))
          with
          | (Normal _, w') => w'
          | (Throw e, w') => set_uncaught (uncaught w' ++ [e]) w'
          end).
  destruct (initShader _) as [c w'].
  cbn [fst snd] in H.
  destruct H as (-> & Hc & Hg & Hp & Hs & Hw & Hh & Hco & Hca & Hr & Hu & Hl).
  cbv zeta. unfold running. repeat split; try assumption; apply Hl; assumption.
Qed.

(** ** Frames *)

(** [render] in a state that holds the canvas, the context and a program:
    it returns normally, makes the five context calls of a frame with the
    time [(now - startTime)/1000], and requests the next frame. *)
Lemma render_runs (w : World) (p : nat) :
  var_canvas w = obj shaderCanvas ->
  var_gl w = obj webgl_context ->
  var_program w = obj p ->
  forall r, render w = r ->
  fst r = Normal tt /\
  var_canvas (snd r) = var_canvas w /\
  var_gl (snd r) = var_gl w /\
  var_program (snd r) = var_program w /\
  startTime (snd r) = startTime w /\
  canvas_width (snd r) = canvas_width w /\
  canvas_height (snd r) = canvas_height w /\
  console (snd r) = console w /\
  calls (gl (snd r))
  = calls (gl w)
    ++ frame_calls p (canvas_width w) (canvas_height w)
                   (elapsed (startTime w) (now w)) /\
  raf (snd r) = raf w ++ [fn_render] /\
  uncaught (snd r) = uncaught w.
Proof.
  destruct w as [vc vg vp st hc cw ch ws g iw ih nw co rf ol ors un].
  destruct g as [dr shs ps cur bufs ab ats vpt errs drws cls].
  cbn [var_canvas var_gl var_program]. intros -> -> ->.
  unfold render.
  repeat (first [js_split | js_step_with js_eval_any]).
  all: intros r <-;
    cbv -[nth_error list_set app Z.ltb Z.sub orb];
    rewrite <- ?app_assoc; repeat split.
Qed.

Lemma times_of_app (cs cs' : list GLCall) :
  times_of (cs ++ cs') = times_of cs ++ times_of cs'.
Proof.
  induction cs as [| c cs IH]; [reflexivity |].
  destruct c; cbn [app times_of]; rewrite IH; reflexivity.
Qed.

(** An animation frame in a running module runs [render] once: the module
    keeps running, nothing else changes on the page, and the time handed
    to the shader is the one of this frame. *)
Lemma frame_event (ts : Z) (w : World) (t : Z) :
  running ts w ->
  running ts (dispatch w (AnimationFrame t)) /\
  elapsed_times (dispatch w (AnimationFrame t))
  = elapsed_times w ++ [elapsed ts t] /\
  console (dispatch w (AnimationFrame t)) = console w.
Proof.
  intros (Hc & Hg & Hp & Hs & Hr & Hu).
  set (w1 := set_raf [] (set_window (innerWidth w) (innerHeight w) t w)).
  assert (Hd : dispatch w (AnimationFrame t)
               = match render w1 with
                 | (Normal _, w') => w'
                 | (Throw e, w') => set_uncaught (uncaught w' ++ [e]) w'
                 end).
  { unfold dispatch. cbn [raf set_window]. rewrite Hr. reflexivity. }
  pose proof (render_runs w1 0 Hc Hg Hp _ eq_refl) as H.
  rewrite Hd. destruct (render w1) as [c w'].
  cbn [fst snd] in H.
  destruct H as (-> & Hc' & Hg' & Hp' & Hs' & _ & _ & Hco & Hca & Hr' & Hu').
  unfold running, elapsed_times. rewrite Hca, times_of_app.
  cbn [w1 var_canvas var_gl var_program startTime raf uncaught console
       set_raf set_window gl now app] in *.
  rewrite Hs. cbn [frame_calls times_of].
  repeat split; congruence.
Qed.

(** A run of animation frames. *)
Lemma frames_run (ts : Z) (clocks : list Z) :
  forall w, running ts w ->
  running ts (run w (map AnimationFrame clocks)) /\
  elapsed_times (run w (map AnimationFrame clocks))
  = elapsed_times w ++ map (elapsed ts) clocks /\
  console (run w (map AnimationFrame clocks)) = console w.
Proof.
  induction clocks as [| t clocks IH]; intros w Hw.
  - cbn [map run fold_left]. rewrite app_nil_r.
    split; [exact Hw | split; reflexivity].
  - destruct (frame_event ts w t Hw) as (Hw' & Ht & Hco).
    destruct (IH _ Hw') as (Hw'' & Ht' & Hco').
    change (run w (map AnimationFrame (t :: clocks)))
      with (run (dispatch w (AnimationFrame t)) (map AnimationFrame clocks)).
    rewrite Ht', Ht, Hco', Hco, <- app_assoc.
    split; [exact Hw'' | split; reflexivity].
Qed.

(** ** C2 *)

Lemma failed_stage_no_link (d : Driver) (stage : ShaderType) (log : string) :
  drv_compile d stage (stage_source stage) = (false, log) ->
  links d = false.
Proof.
  intros H. unfold links.
  destruct stage; cbn [stage_source] in H; rewrite H; cbn [fst].
  - reflexivity.
  - rewrite andb_false_r. reflexivity.
Qed.

Lemma failed_stage_diagnostic (d : Driver) (stage : ShaderType)
    (log : string) :
  drv_compile d stage (stage_source stage) = (false, log) ->
  In (ConsoleError [stage_label stage; log])
     (diagnostic d VERTEX_SHADER ++ diagnostic d FRAGMENT_SHADER).
Proof.
  intros H. apply in_or_app.
  destruct stage; [left | right]; unfold diagnostic; rewrite H; left;
    reflexivity.
Qed.

(** C2. Let the page have its canvas and a WebGL context, and let the
    driver reject the source of a stage (vertex or fragment) with info log
    [log].  Then after the load event: the console holds the error entry
    of that stage with [log]; the context was called through the whole
    setup all the same, [linkProgram] and [useProgram] included, and then
    through one frame; one [render] is pending and nothing was thrown; no
    program is current and nothing was drawn.  Every later animation frame
    again leaves one [render] pending and throws nothing. *)
Theorem compile_failure_logged_setup_proceeds
    (d : Driver) (iw ih ts t : Z) (stage : ShaderType) (log : string) :
  drv_compile d stage (stage_source stage) = (false, log) ->
  let w := dispatch (boot d true true iw ih ts) (Load t) in
  In (ConsoleError [stage_label stage; log]) (console w) /\
  calls (gl w) = setup_calls d iw ih ++ frame_calls 0 iw ih (elapsed ts t) /\
  In (LinkProgram 0) (calls (gl w)) /\
  In (UseProgram 0) (calls (gl w)) /\
  raf w = [fn_render] /\
  uncaught w = [] /\
  current (gl w) = None /\
  draws (gl w) = [] /\
  (forall clocks : list Z,
      raf (run w (map AnimationFrame clocks)) = [fn_render] /\
      uncaught (run w (map AnimationFrame clocks)) = []).
Proof.
  intros H w.
  destruct (load_running d iw ih ts t) as (Hrun & _ & _ & Hco & Hca & Hl).
  fold w in Hrun, Hco, Hca, Hl.
  destruct (Hl (failed_stage_no_link d stage log H)) as [Hcur Hdr].
  assert (Hin : forall c, In c (setup_calls d iw ih) -> In c (calls (gl w))).
  { intros c Hc. rewrite Hca. apply in_or_app. left. exact Hc. }
  split; [rewrite Hco; apply failed_stage_diagnostic; exact H |].
  split; [exact Hca |].
  split; [apply Hin; cbn; tauto |].
  split; [apply Hin; cbn; tauto |].
  split; [apply Hrun |].
  split; [apply Hrun |].
  split; [exact Hcur |].
  split; [exact Hdr |].
  intros clocks.
  destruct (frames_run ts clocks w Hrun) as (Hrun' & _).
  split; apply Hrun'.
Qed.

Lemma compile_failure_logged_setup_proceeds_witness :
  let w := dispatch (boot (rejecting_fragment "ERROR: 0:1: syntax error")
                          true true 800 600 1000) (Load 1500) in
  In (ConsoleError ["Fragment shader error:"; "ERROR: 0:1: syntax error"]%string)
     (console w) /\
  raf w = [fn_render] /\
  uncaught w = [].
Proof.
  pose proof (compile_failure_logged_setup_proceeds
                (rejecting_fragment "ERROR: 0:1: syntax error")
                800 600 1000 1500 FRAGMENT_SHADER
                "ERROR: 0:1: syntax error" eq_refl) as H.
  cbv zeta in H. cbv zeta.
  destruct H as (Hlog & _ & _ & _ & Hraf & Hun & _).
  split; [exact Hlog | split; [exact Hraf | exact Hun]].
Defined.

(** ** C6 *)

Lemma nondecreasing_nth (l : list Z) :
  nondecreasing l = true ->
  forall (k : nat) (a b : Z),
    nth_error l k = Some a -> nth_error l (S k) = Some b -> a <= b.
Proof.
  induction l as [| x l IH]; intros Hl k a b Ha Hb.
  - destruct k; discriminate.
  - destruct l as [| y l']; [destruct k as [| []]; discriminate |].
    cbn [nondecreasing] in Hl. apply andb_prop in Hl. destruct Hl as [Hxy Hl].
    destruct k as [| k].
    + cbn in Ha, Hb. injection Ha as <-. injection Hb as <-.
      apply Z.leb_le. exact Hxy.
    + apply (IH Hl k); assumption.
Qed.

Lemma elapsed_le (ts a b : Z) : a <= b -> (elapsed ts a <= elapsed ts b)%Q.
Proof. intros H. unfold elapsed, Qle. cbn [Qnum Qden]. lia. Qed.

(** The frame times of a page run through a load event and then a series
    of animation frames. *)
Lemma elapsed_times_of_run (d : Driver) (iw ih ts t0 : Z) (clocks : list Z) :
  elapsed_times (run (boot d true true iw ih ts)
                     (Load t0 :: map AnimationFrame clocks))
  = map (elapsed ts) (t0 :: clocks).
Proof.
  destruct (load_running d iw ih ts t0) as (Hrun & _ & _ & _ & Hca & _).
  change (run (boot d true true iw ih ts)
              (Load t0 :: map AnimationFrame clocks))
    with (run (dispatch (boot d true true iw ih ts) (Load t0))
              (map AnimationFrame clocks)).
  destruct (frames_run ts clocks _ Hrun) as (_ & Ht & _).
  rewrite Ht. unfold elapsed_times at 1. rewrite Hca, times_of_app.
  reflexivity.
Qed.

(** C6. Fix the start time [ts].  Run the page through its load event at
    clock reading [t0] and then through animation frames at the readings
    [clocks], however many.  The times [render] computes are
    [(t - ts)/1000] for each reading [t] in turn; so when the readings
    never decrease, no frame's time is below the time of the frame before
    it. *)
Theorem elapsed_time_monotone
    (d : Driver) (iw ih ts t0 : Z) (clocks : list Z) :
  nondecreasing (t0 :: clocks) = true ->
  let w := run (boot d true true iw ih ts)
               (Load t0 :: map AnimationFrame clocks) in
  elapsed_times w = map (elapsed ts) (t0 :: clocks) /\
  forall (k : nat) (x y : Q),
    nth_error (elapsed_times w) k = Some x ->
    nth_error (elapsed_times w) (S k) = Some y ->
    (x <= y)%Q.
Proof.
  intros Hnd w. subst w.
  rewrite elapsed_times_of_run. split; [reflexivity |].
  intros k x y Hx Hy.
  rewrite nth_error_map in Hx, Hy.
  destruct (nth_error (t0 :: clocks) k) as [a |] eqn:Ea; [| discriminate].
  destruct (nth_error (t0 :: clocks) (S k)) as [b |] eqn:Eb; [| discriminate].
  cbn [option_map] in Hx, Hy. injection Hx as <-. injection Hy as <-.
  apply elapsed_le. exact (nondecreasing_nth _ Hnd k a b Ea Eb).
Qed.

(** A thousand frames, 16 ms apart. *)
Lemma elapsed_time_monotone_witness :
  let clocks := map (fun k => 1500 + 16 * Z.of_nat k) (seq 1 1000) in
  let w := run (boot accepting true true 800 600 1000)
               (Load 1500 :: map AnimationFrame clocks) in
  elapsed_times w = map (elapsed 1000) (1500 :: clocks) /\
  forall (k : nat) (x y : Q),
    nth_error (elapsed_times w) k = Some x ->
    nth_error (elapsed_times w) (S k) = Some y ->
    (x <= y)%Q.
Proof.
  intros clocks.
  apply (elapsed_time_monotone accepting 800 600 1000 1500 clocks).
  vm_compute. reflexivity.
Defined.

(** ** [resizeCanvas] *)

(** What [resizeCanvas] does once the module holds its canvas and its
    context. *)
Lemma resizeCanvas_running (w : World) :
  var_canvas w = obj shaderCanvas ->
  var_gl w = obj webgl_context ->
  resizeCanvas w
  = (Normal tt,
     set_gl (snd (gl_viewport 0 0 (innerWidth w) (innerHeight w) (gl w)))
            (set_canvas_height (innerHeight w)
               (set_canvas_width (innerWidth w) w))).
Proof.
  destruct w; cbn. intros -> ->. reflexivity.
Qed.

(** Without a context the sizes are written and the call of
    [gl.viewport] throws. *)
Lemma resizeCanvas_no_context (w : World) :
  var_canvas w = obj shaderCanvas ->
  var_gl w = null ->
  resizeCanvas w
  = (Throw (TypeError "gl.viewport"),
     set_canvas_height (innerHeight w) (set_canvas_width (innerWidth w) w)).
Proof.
  destruct w; cbn. intros -> ->. reflexivity.
Qed.

(** C3. Let the window measure [iw] x [ih] with [iw > 0] and [ih > 0],
    and let the module hold its canvas.  After [resizeCanvas] the canvas
    reports the size [iw] x [ih]; and when the module also holds its
    context, [resizeCanvas] returns normally and the viewport of the
    context is the rectangle at (0,0) of width [iw] and height [ih]. *)
Theorem resize_sets_surface_and_viewport (w : World) (iw ih : Z) :
  var_canvas w = obj shaderCanvas ->
  innerWidth w = iw ->
  innerHeight w = ih ->
  0 < iw ->
  0 < ih ->
  canvas_width (snd (resizeCanvas w)) = iw /\
  canvas_height (snd (resizeCanvas w)) = ih /\
  (var_gl w = obj webgl_context ->
   fst (resizeCanvas w) = Normal tt /\
   viewport (gl (snd (resizeCanvas w))) = (0, 0, iw, ih)).
Proof.
  intros Hc Hw Hh Hiw Hih.
  destruct (var_gl w) as [| | []] eqn:Hg.
  - destruct w; cbn in *; subst. repeat split; discriminate.
  - rewrite (resizeCanvas_no_context w Hc Hg). rewrite Hw, Hh.
    repeat split; discriminate.
  - rewrite (resizeCanvas_running w Hc Hg). rewrite Hw, Hh.
    cbn.
    destruct (Z.ltb_spec iw 0); [lia |].
    destruct (Z.ltb_spec ih 0); [lia |].
    cbn. repeat split.
Qed.

Lemma resize_sets_surface_and_viewport_witness :
  let w := run (boot accepting true true 800 600 1000) [Load 1500] in
  canvas_width (snd (resizeCanvas w)) = 800 /\
  canvas_height (snd (resizeCanvas w)) = 600 /\
  fst (resizeCanvas w) = Normal tt /\
  viewport (gl (snd (resizeCanvas w))) = (0, 0, 800, 600).
Proof.
  intros w.
  destruct (resize_sets_surface_and_viewport w 800 600)
    as (Hcw & Hch & Hgl); try reflexivity; try lia.
  destruct (Hgl eq_refl) as [Hok Hvp].
  repeat split; assumption.
Defined.

(** Running [resizeCanvas] a second time changes neither its outcome, nor
    the size of the canvas, nor the viewport. *)
Lemma resizeCanvas_idempotent (w : World) :
  let r1 := resizeCanvas w in
  let r2 := resizeCanvas (snd r1) in
  fst r2 = fst r1 /\
  canvas_width (snd r2) = canvas_width (snd r1) /\
  canvas_height (snd r2) = canvas_height (snd r1) /\
  viewport (gl (snd r2)) = viewport (gl (snd r1)).
Proof.
  destruct w as [vc vg vp st hc cw ch ws g iw ih nw co rf ol ors un].
  destruct vc as [| | []]; [cbn; repeat split .. |].
  destruct vg as [| | []]; [cbn; repeat split .. |].
  cbn.
  destruct ((iw <? 0) || (ih <? 0)) eqn:E; cbn; rewrite ?E; cbn;
    repeat split.
Qed.

(** ** A page without WebGL *)

(** After the load event on a page whose canvas gives no context: the
    failure is on the console, the context was never called, no frame is
    requested and nothing was thrown; the module keeps [gl = null]. *)
Lemma load_without_context (d : Driver) (iw ih ts t : Z) :
  let w := dispatch (boot d true false iw ih ts) (Load t) in
  var_canvas w = obj shaderCanvas /\
  var_gl w = null /\
  console w = [ConsoleLog ["WebGL not supported"%string]] /\
  calls (gl w) = [] /\
  raf w = [] /\
  uncaught w = [] /\
  onresize w = Some fn_resizeCanvas.
Proof. cbn. repeat split. Qed.

(** C7, on the code.  With the context unavailable at the load event the
    failure is logged, no shader is created, no buffer is uploaded and no
    frame is requested, and nothing is thrown; but the resize handler stays
    installed, and the first resize event afterwards throws a TypeError out
    of [resizeCanvas], at [gl.viewport]. *)
Theorem resize_after_failed_init_throws (d : Driver) (iw ih ts t : Z)
    (t' iw' ih' : Z) :
  let w := dispatch (boot d true false iw ih ts) (Load t) in
  (console w = [ConsoleLog ["WebGL not supported"%string]] /\
   calls (gl w) = [] /\ raf w = [] /\ uncaught w = []) /\
  uncaught (dispatch w (Resize t' iw' ih'))
  = [TypeError "gl.viewport"].
Proof. cbn. repeat split. Qed.

(** C9, on the code.  [resizeCanvas] is idempotent in every state: a
    second run changes neither the outcome, nor the canvas size, nor the
    viewport.  It does have an error condition: on the page left by a load
    event without WebGL it throws a TypeError. *)
Theorem resize_idempotent_but_can_throw :
  (forall w : World,
      fst (resizeCanvas (snd (resizeCanvas w))) = fst (resizeCanvas w) /\
      canvas_width (snd (resizeCanvas (snd (resizeCanvas w))))
      = canvas_width (snd (resizeCanvas w)) /\
      canvas_height (snd (resizeCanvas (snd (resizeCanvas w))))
      = canvas_height (snd (resizeCanvas w)) /\
      viewport (gl (snd (resizeCanvas (snd (resizeCanvas w)))))
      = viewport (gl (snd (resizeCanvas w)))) /\
  fst (resizeCanvas (dispatch (boot accepting true false 800 600 1000)
                              (Load 1500)))
  = Throw (TypeError "gl.viewport").
Proof.
  split.
  - intros w. apply (resizeCanvas_idempotent w).
  - reflexivity.
Qed.


End HostProgram.

(* ================================================================== *)
(** * Part V: further properties of the fragment stage *)
(* ================================================================== *)

Section FragmentStageShape.

Import GLSL.
Local Open Scope R_scope.

Ltac vec_unfold :=
  unfold rgb, vec4_of, xy, div2, sub2s, add3, scale3;
  cbn [r3 g3 b3 x2 y2 x4 y4 z4 w4].

(** ** Bounds *)

Lemma exp_nonpos (x : R) : x <= 0 -> exp x <= 1.
Proof.
  intros [Hlt | ->].
  - rewrite <- exp_0. left. apply exp_increasing. exact Hlt.
  - rewrite exp_0. lra.
Qed.

Lemma blur_le (iTime : R) (uv : vec2) (i : Z) : blur iTime uv i <= 0.3.
Proof.
  unfold blur.
  pose proof (Rabs_pos (x2 uv - wave iTime uv i)) as Hd.
  pose proof (exp_nonpos (- Rabs (x2 uv - wave iTime uv i) * 20)) as He.
  assert (exp (- Rabs (x2 uv - wave iTime uv i) * 20) <= 1) by (apply He; lra).
  lra.
Qed.

(** The wave stays within 0.2 of the centre column. *)
Lemma wave_bounded (iTime : R) (uv : vec2) (i : Z) :
  -0.2 <= wave iTime uv i <= 0.2.
Proof.
  unfold wave.
  pose proof (SIN_bound (iTime * speed_of i * 0.2 + y2 uv * 8)). lra.
Qed.

(** X1. No channel of the colour [main] writes exceeds what the six iterations
    add when every [line] is 1 and every [blur] is 0.3, that is
    (4.86, 2.39, 6.34); alpha is 1.  The bound is the colour at the centre
    of the screen at time 0. *)
Theorem main_below_max :
  (forall (gl_FragCoord : vec4) (u : Uniforms),
      x4 (main gl_FragCoord u) <= 4.86 /\
      y4 (main gl_FragCoord u) <= 2.39 /\
      z4 (main gl_FragCoord u) <= 6.34 /\
      w4 (main gl_FragCoord u) = 1) /\
  main (Vec4 1 1 0 1) {| iResolution := Vec2 2 2; iTime := 0 |}
  = Vec4 4.86 2.39 6.34 1.
Proof.
  split.
  - intros fc u. rewrite main_shade.
    set (uv := spec_uv _ _). set (t := iTime u).
    unfold shade. rewrite for_loop_six. unfold loop_body, t_of.
    assert (H : forall i, line t uv i + blur t uv i <= 1.3).
    { intros i. pose proof (line_range t uv i). pose proof (blur_le t uv i).
      lra. }
    pose proof (H 0%Z) as H0. pose proof (H 1%Z) as H1.
    pose proof (H 2%Z) as H2. pose proof (H 3%Z) as H3.
    pose proof (H 4%Z) as H4. pose proof (H 5%Z) as H5.
    set (s0 := line t uv 0 + blur t uv 0) in *.
    set (s1 := line t uv 1 + blur t uv 1) in *.
    set (s2 := line t uv 2 + blur t uv 2) in *.
    set (s3 := line t uv 3 + blur t uv 3) in *.
    set (s4 := line t uv 4 + blur t uv 4) in *.
    set (s5 := line t uv 5 + blur t uv 5) in *.
    vec_unfold. repeat split; lra.
  - rewrite main_shade.
    replace (spec_uv _ _) with (Vec2 0 0)
      by (unfold spec_uv; cbn [xy iResolution x2 y2 x4 y4];
          apply f_equal2; lra).
    cbn [iTime]. unfold shade. rewrite for_loop_six. unfold loop_body.
    rewrite !line_origin, !blur_origin. unfold t_of.
    vec_unfold. apply vec4_eq; lra.
Qed.

(** ** Where the line is *)

Lemma line_levels (iTime : R) (uv : vec2) (i : Z) :
  (line iTime uv i = 1 <-> Rabs (x2 uv - wave iTime uv i) <= 0.003) /\
  (line iTime uv i = 0 <-> 0.008 <= Rabs (x2 uv - wave iTime uv i)).
Proof.
  unfold line. set (d := Rabs (x2 uv - wave iTime uv i)).
  assert (Hmid : 0.003 < d < 0.008 ->
                 0 < smoothstep 0.003 0.008 d < 1).
  { intros Hd. unfold smoothstep.
    rewrite clamp_inside
      by (apply (ratio_sign 0.003 0.008 d edges_ordered); lra).
    assert (Hs : 0 < (d - 0.003) / (0.008 - 0.003) < 1).
    { unfold Rdiv. replace (/ (0.008 - 0.003)) with 200 by lra. lra. }
    set (s := (d - 0.003) / (0.008 - 0.003)) in *.
    assert (0 < s * s) by nra.
    assert (H1 : 1 - s * s * (3 - 2 * s) = (1 - s) * (1 - s) * (1 + 2 * s))
      by ring.
    assert (0 < (1 - s) * (1 - s)) by nra.
    assert (0 < (1 - s) * (1 - s) * (1 + 2 * s)) by nra.
    split; nra. }
  split; split.
  - intros H. destruct (Rle_dec d 0.003) as [| Hn]; [assumption |].
    destruct (Rle_dec 0.008 d).
    + rewrite (smoothstep_above _ _ _ edges_ordered) in H by assumption. lra.
    + assert (0 < smoothstep 0.003 0.008 d < 1) by (apply Hmid; lra). lra.
  - intros H. rewrite (smoothstep_below _ _ _ edges_ordered) by assumption.
    ring.
  - intros H. destruct (Rle_dec 0.008 d) as [| Hn]; [assumption |].
    destruct (Rle_dec d 0.003).
    + rewrite (smoothstep_below _ _ _ edges_ordered) in H by assumption. lra.
    + assert (0 < smoothstep 0.003 0.008 d < 1) by (apply Hmid; lra). lra.
  - intros H. rewrite (smoothstep_above _ _ _ edges_ordered) by assumption.
    ring.
Qed.



(** X3. Off the central band, that is for [abs(uv.x) >= 0.208], no iteration
    draws its line at any time: [line] is 0 and the iteration adds its
    glow only. *)
Theorem no_line_outside_band (iTime : R) (uv : vec2) (i : Z) (col : vec3) :
  0.208 <= Rabs (x2 uv) ->
  line iTime uv i = 0 /\
  loop_body iTime uv i col
  = add3 col (scale3 (blur iTime uv i) (Vec3 (0.2 + t_of i) 0.3 0.8)).
Proof.
  intros Hx.
  assert (Hl : line iTime uv i = 0).
  { apply (line_levels iTime uv i).
    pose proof (wave_bounded iTime uv i) as Hw.
    pose proof (Rabs_triang_inv (x2 uv) (wave iTime uv i)) as Ht.
    assert (Rabs (wave iTime uv i) <= 0.2)
      by (apply Rabs_le; lra).
    lra. }
  split; [exact Hl |].
  unfold loop_body. rewrite Hl.
  replace (0 + blur iTime uv i) with (blur iTime uv i) by ring.
  reflexivity.
Qed.

Lemma no_line_outside_band_witness :
  line 0 (Vec2 0.25 0) 3 = 0.
Proof.
  apply (no_line_outside_band 0 (Vec2 0.25 0) 3 (Vec3 0 0 0)).
  cbn [x2]. rewrite Rabs_right by lra. lra.
Defined.


(** ** Brightness falls with the distance to the wave *)

Lemma smoothstep_monotone (edge0 edge1 x y : R) :
  edge0 < edge1 -> x <= y ->
  smoothstep edge0 edge1 x <= smoothstep edge0 edge1 y.
Proof.
  intros He Hxy. unfold smoothstep.
  pose proof (clamp_unit_range ((x - edge0) / (edge1 - edge0))) as Ha.
  pose proof (clamp_unit_range ((y - edge0) / (edge1 - edge0))) as Hb.
  assert (Hab : clamp ((x - edge0) / (edge1 - edge0)) 0 1
                <= clamp ((y - edge0) / (edge1 - edge0)) 0 1).
  { assert (Hq : (x - edge0) / (edge1 - edge0)
                 <= (y - edge0) / (edge1 - edge0)).
    { unfold Rdiv. apply Rmult_le_compat_r; [| lra].
      left. apply Rinv_0_lt_compat. lra. }
    unfold clamp. apply Rle_min_compat_r. apply Rle_max_compat_r.
    exact Hq. }
  set (a := clamp ((x - edge0) / (edge1 - edge0)) 0 1) in *.
  set (b := clamp ((y - edge0) / (edge1 - edge0)) 0 1) in *.
  assert (H : b * b * (3 - 2 * b) - a * a * (3 - 2 * a)
              = (b - a) * (3 * (a + b) - 2 * (a * a + a * b + b * b)))
    by ring.
  assert (Hpos : 0 <= 3 * (a + b) - 2 * (a * a + a * b + b * b)).
  { assert (0 <= a * (1 - a)) by nra.
    assert (0 <= b * (1 - b)) by nra.
    assert (0 <= a * (1 - b)) by nra.
    assert (0 <= b * (1 - a)) by nra.
    nra. }
  assert (0 <= (b - a) * (3 * (a + b) - 2 * (a * a + a * b + b * b)))
    by (apply Rmult_le_pos; lra).
  lra.
Qed.

(** X4. Of two evaluations of an iteration, the one nearer to its wave has
    the brighter line and the brighter glow, so it adds more to every
    channel weight for weight. *)
Theorem closer_is_brighter (t t' : R) (uv uv' : vec2) (i i' : Z) :
  Rabs (x2 uv - wave t uv i) <= Rabs (x2 uv' - wave t' uv' i') ->
  line t' uv' i' <= line t uv i /\ blur t' uv' i' <= blur t uv i.
Proof.
  intros Hd. split.
  - unfold line.
    pose proof (smoothstep_monotone 0.003 0.008 _ _ edges_ordered Hd). lra.
  - unfold blur.
    assert (exp (- Rabs (x2 uv' - wave t' uv' i') * 20)
            <= exp (- Rabs (x2 uv - wave t uv i) * 20)).
    { destruct Hd as [Hlt | Heq].
      - left. apply exp_increasing. lra.
      - rewrite Heq. lra. }
    lra.
Qed.

Lemma closer_is_brighter_witness :
  line 0 (Vec2 0.5 0) 2 <= line 0 (Vec2 0.001 0) 1 /\
  blur 0 (Vec2 0.5 0) 2 <= blur 0 (Vec2 0.001 0) 1.
Proof.
  apply (closer_is_brighter 0 0 (Vec2 0.001 0) (Vec2 0.5 0) 1 2).
  rewrite !wave_origin. cbn [x2].
  rewrite !Rabs_right by lra. lra.
Defined.

(** ** Symmetries *)

(** The colour depends on time and place only through [line] and [blur]. *)
Lemma shade_congr (t t' : R) (uv uv' : vec2) :
  (forall i, line t uv i = line t' uv' i) ->
  (forall i, blur t uv i = blur t' uv' i) ->
  shade t uv = shade t' uv'.
Proof.
  intros Hl Hb. unfold shade. rewrite !for_loop_six. unfold loop_body.
  rewrite (Hl 0%Z), (Hl 1%Z), (Hl 2%Z), (Hl 3%Z), (Hl 4%Z), (Hl 5%Z).
  rewrite (Hb 0%Z), (Hb 1%Z), (Hb 2%Z), (Hb 3%Z), (Hb 4%Z), (Hb 5%Z).
  reflexivity.
Qed.






(** X7. Played backwards, the animation is the forward one turned by half a
    turn about the centre of the screen: negating [uv] and the time
    together changes no colour. *)
Theorem main_point_symmetric (fc1 fc2 : vec4) (u1 u2 : Uniforms) :
  x2 (spec_uv (xy fc2) (iResolution u2))
  = - x2 (spec_uv (xy fc1) (iResolution u1)) ->
  y2 (spec_uv (xy fc2) (iResolution u2))
  = - y2 (spec_uv (xy fc1) (iResolution u1)) ->
  iTime u2 = - iTime u1 ->
  main fc2 u2 = main fc1 u1.
Proof.
  intros Hx Hy Ht. rewrite !main_shade.
  set (uv1 := spec_uv (xy fc1) (iResolution u1)) in *.
  set (uv2 := spec_uv (xy fc2) (iResolution u2)) in *.
  assert (Hw : forall i, wave (iTime u2) uv2 i = - wave (iTime u1) uv1 i).
  { intros i. unfold wave. rewrite Hy, Ht.
    replace (- iTime u1 * speed_of i * 0.2 + - y2 uv1 * 8)
      with (- (iTime u1 * speed_of i * 0.2 + y2 uv1 * 8)) by ring.
    rewrite sin_neg. ring. }
  assert (Hd : forall i, Rabs (x2 uv2 - wave (iTime u2) uv2 i)
                         = Rabs (x2 uv1 - wave (iTime u1) uv1 i)).
  { intros i. rewrite Hx, Hw.
    replace (- x2 uv1 - - wave (iTime u1) uv1 i)
      with (- (x2 uv1 - wave (iTime u1) uv1 i)) by ring.
    apply Rabs_Ropp. }
  apply shade_congr; intros i; unfold line, blur; rewrite Hd; reflexivity.
Qed.

Lemma main_point_symmetric_witness :
  main (Vec4 3 3 0 1) {| iResolution := Vec2 4 4; iTime := -2 |}
  = main (Vec4 1 1 0 1) {| iResolution := Vec2 4 4; iTime := 2 |}.
Proof.
  apply main_point_symmetric;
    unfold spec_uv; cbn [xy iResolution iTime x2 y2 x4 y4]; lra.
Defined.

End FragmentStageShape.

(* ================================================================== *)
(** * Part VI: the quad *)
(* ================================================================== *)

Section FullScreenQuad.

Import GLSL Quad.
Local Open Scope R_scope.

(** X8. The six vertices [initShader] uploads make two triangles, and a point
    of the plane lies in one of them exactly when it lies in the square
    [-1,1] x [-1,1]: the draw call of [render] covers the whole of clip
    space and nothing else. *)
Theorem quad_covers_clip_space (x y : R) :
  (exists t, In t (triangles (vertices Host.quad)) /\ covers t (x, y))
  <-> (-1 <= x <= 1 /\ -1 <= y <= 1).
Proof.
  unfold Host.quad. cbn [vertices triangles In].
  split.
  - intros (t & [<- | [<- | []]] & Hc);
      unfold covers, ndc, vertex_main, edge in Hc;
      cbn [x4 y4 w4 x2 y2 fst snd] in Hc;
      destruct Hc as [Hc | Hc]; lra.
  - intros [Hx Hy]. destruct (Rle_dec (x + y) 0) as [Hs | Hs].
    + eexists. split; [left; reflexivity |].
      unfold covers, ndc, vertex_main, edge. cbn [x4 y4 w4 x2 y2 fst snd].
      left. lra.
    + eexists. split; [right; left; reflexivity |].
      unfold covers, ndc, vertex_main, edge. cbn [x4 y4 w4 x2 y2 fst snd].
      left. lra.
Qed.

Lemma quad_covers_clip_space_witness :
  exists t, In t (triangles (vertices Host.quad)) /\ covers t (0.5, -0.25).
Proof.
  apply (quad_covers_clip_space 0.5 (-0.25)). lra.
Defined.

End FullScreenQuad.

(* ================================================================== *)
(** * Part VII: the page over any run of events *)
(* ================================================================== *)

Section HostEvents.

Import Host.
Local Open Scope Z_scope.

(** ** What no statement touches *)

Lemma preserves_ret {A X : Type} (f : World -> X) (a : A) :
  preserves f (ret a).
Proof. intros w. reflexivity. Qed.

Lemma preserves_throw {A X : Type} (f : World -> X) (e : Exn) :
  preserves f (@throw A e).
Proof. intros w. reflexivity. Qed.

Lemma preserves_get {A X : Type} (f : World -> X) (g : World -> A) :
  preserves f (get g).
Proof. intros w. reflexivity. Qed.

Lemma preserves_bind {A B X : Type} (f : World -> X) (m : JS A)
    (k : A -> JS B) :
  preserves f m -> (forall a, preserves f (k a)) -> preserves f (bind m k).
Proof.
  intros Hm Hk w. unfold bind, after.
  specialize (Hm w). destruct (m w) as [[a | e] w']; cbn [snd] in *.
  - rewrite Hk. exact Hm.
  - exact Hm.
Qed.

Lemma preserves_modify {X : Type} (f : World -> X) (g : World -> World) :
  (forall w, f (g w) = f w) -> preserves f (modify g).
Proof. intros H w. apply H. Qed.

Lemma preserves_on_canvas {A X : Type} (f : World -> X) (member : string)
    (m : JS A) :
  preserves f m -> preserves f (on_canvas member m).
Proof.
  intros Hm. unfold on_canvas. apply preserves_bind.
  - apply preserves_get.
  - intros [| | []]; try apply preserves_throw. exact Hm.
Qed.

Lemma preserves_gl_member {X : Type} (f : World -> X) (member : string) :
  preserves f (gl_member member).
Proof.
  unfold gl_member. apply preserves_bind.
  - apply preserves_get.
  - intros [| | []]; first [apply preserves_throw | apply preserves_ret].
Qed.

Lemma preserves_the_program {X : Type} (f : World -> X) :
  preserves f the_program.
Proof.
  unfold the_program. apply preserves_bind.
  - apply preserves_get.
  - intros [| | h]; first [apply preserves_throw | apply preserves_ret].
Qed.

(** A call of the context changes the page through the context only. *)
Lemma preserves_on_gl {A X : Type} (f : World -> X) (member : string)
    (op : GLState -> A * GLState) :
  (forall w, f (set_gl (snd (op (gl w))) w) = f w) ->
  preserves f (on_gl member op).
Proof.
  intros H. unfold on_gl. apply preserves_bind.
  - apply preserves_get.
  - intros [| | []]; try apply preserves_throw.
    intros w. specialize (H w). destruct (op (gl w)) as [a g']. exact H.
Qed.

Lemma fixtures_set_gl (g : GLState) (w : World) :
  fixtures (set_gl g w) = fixtures w.
Proof. reflexivity. Qed.

Create HintDb fixed discriminated.

#[local] Hint Resolve preserves_ret preserves_throw preserves_get
  preserves_gl_member preserves_the_program : fixed.

Lemma fixtures_on_gl {A : Type} (member : string)
    (op : GLState -> A * GLState) :
  preserves fixtures (on_gl member op).
Proof. apply preserves_on_gl. intros w. reflexivity. Qed.

Lemma fixtures_on_canvas_get (member : string) (g : World -> Z) :
  preserves fixtures (on_canvas member (get g)).
Proof. apply preserves_on_canvas. apply preserves_get. Qed.

Lemma fixtures_on_canvas_modify (member : string) (g : World -> World) :
  (forall w, fixtures (g w) = fixtures w) ->
  preserves fixtures (on_canvas member (modify g)).
Proof. intros H. apply preserves_on_canvas, preserves_modify, H. Qed.

Lemma fixtures_console_log (args : list string) :
  preserves fixtures (console_log args).
Proof. intros w. reflexivity. Qed.

Lemma fixtures_console_error (args : list string) :
  preserves fixtures (console_error args).
Proof. intros w. reflexivity. Qed.

Lemma fixtures_requestAnimationFrame (f : Callback) :
  preserves fixtures (requestAnimationFrame f).
Proof. intros w. reflexivity. Qed.

#[local] Hint Resolve fixtures_on_gl fixtures_on_canvas_get fixtures_console_log
  fixtures_console_error fixtures_requestAnimationFrame : fixed.

(** Take a sequence apart, statement by statement. *)
Ltac fixed :=
  repeat first
    [ solve [auto with fixed]
    | apply fixtures_on_canvas_modify; intros ?; reflexivity
    | apply preserves_modify; intros ?; reflexivity
    | match goal with
      | |- preserves _ (if ?b then _ else _) => destruct b
      | |- preserves _ (bind _ _) => apply preserves_bind; [| intros ?]
      end ].

Lemma fixtures_resizeCanvas : preserves fixtures resizeCanvas.
Proof. unfold resizeCanvas. fixed. Qed.

Lemma fixtures_render : preserves fixtures render.
Proof. unfold render. fixed. Qed.

Lemma fixtures_document_getElementById (id : string) :
  preserves fixtures (document_getElementById id).
Proof. unfold document_getElementById. fixed. Qed.

Lemma fixtures_canvas_getContext (kind : string) :
  preserves fixtures (canvas_getContext kind).
Proof. unfold canvas_getContext. apply preserves_on_canvas. fixed. Qed.

#[local] Hint Resolve fixtures_resizeCanvas fixtures_render
  fixtures_document_getElementById fixtures_canvas_getContext : fixed.

Lemma fixtures_initShader : preserves fixtures initShader.
Proof. unfold initShader. fixed. Qed.

Lemma fixtures_run_callback (f : Callback) (w : World) :
  fixtures (run_callback f w) = fixtures w.
Proof.
  unfold run_callback.
  assert (H : fixtures (snd (call f w)) = fixtures w).
  { destruct f; cbn [call];
      [apply fixtures_initShader | apply fixtures_resizeCanvas
       | apply fixtures_render]. }
  destruct (call f w) as [[a | e] w']; exact H.
Qed.

Lemma fixtures_dispatch (w : World) (e : Event) :
  fixtures (dispatch w e) = fixtures w.
Proof.
  destruct e as [t | t iw ih | t]; cbn [dispatch].
  - destruct (onload _); [rewrite fixtures_run_callback |]; reflexivity.
  - destruct (onresize _); [rewrite fixtures_run_callback |]; reflexivity.
  - set (w0 := set_raf [] _).
    change (fixtures w) with (fixtures w0).
    generalize w0. generalize (raf (set_window (innerWidth w)
                                       (innerHeight w) t w)).
    intros cbs. induction cbs as [| f cbs IH]; intros w1; [reflexivity |].
    cbn [fold_left]. rewrite IH. apply fixtures_run_callback.
Qed.

(** X9. The start time and the two handlers are set by the script and never
    again: no event, on any page and under any driver, changes them,
    whether its handler returns or throws. *)
Theorem fixtures_never_change (w : World) (es : list Event) :
  startTime (run w es) = startTime w /\
  onload (run w es) = onload w /\
  onresize (run w es) = onresize w.
Proof.
  assert (H : fixtures (run w es) = fixtures w).
  { revert w. induction es as [| e es IH]; intros w; [reflexivity |].
    change (run w (e :: es)) with (run (dispatch w e) es).
    rewrite IH. apply fixtures_dispatch. }
  split; [| split].
  - exact (f_equal (fun x => fst (fst x)) H).
  - exact (f_equal (fun x => snd (fst x)) H).
  - exact (f_equal snd H).
Qed.

Lemma onresize_dispatch (w : World) (e : Event) :
  onresize (dispatch w e) = onresize w.
Proof. exact (f_equal snd (fixtures_dispatch w e)). Qed.


(** ** Pages that cannot start *)

(** X10. Without the element [#shaderCanvas] the load event throws a TypeError
    out of [initShader] at [canvas.getContext]: nothing is logged, the
    context is never called and no frame is requested.  A resize event on
    such a page, or before any load event, throws at [canvas.width] and
    leaves the page as it was. *)
Theorem missing_canvas_throws (d : Driver) (webgl : bool)
    (iw ih ts t : Z) (t' iw' ih' : Z) :
  let w := dispatch (boot d false webgl iw ih ts) (Load t) in
  (uncaught w = [TypeError "canvas.getContext"] /\
   var_canvas w = null /\ var_gl w = undefined /\
   console w = [] /\ calls (gl w) = [] /\ raf w = []) /\
  (uncaught (dispatch w (Resize t' iw' ih'))
   = [TypeError "canvas.getContext"; TypeError "canvas.width"] /\
   calls (gl (dispatch w (Resize t' iw' ih'))) = []) /\
  (forall canvas : bool,
      let w0 := dispatch (boot d canvas webgl iw ih ts)
                         (Resize t' iw' ih') in
      uncaught w0 = [TypeError "canvas.width"] /\
      canvas_width w0 = 300 /\ canvas_height w0 = 150 /\
      calls (gl w0) = []).
Proof.
  cbn. repeat split.
Qed.

Lemma last_cons {A : Type} (l : list A) :
  forall a d : A, last (a :: l) d = last l a.
Proof.
  induction l as [| b l IH]; intros a d; [reflexivity |].
  change (last (a :: b :: l) d) with (last (b :: l) d).
  rewrite (IH b d), (IH b a). reflexivity.
Qed.

Lemma contextless_resize (w : World) (t iw ih : Z) :
  contextless w ->
  contextless (dispatch w (Resize t iw ih)) /\
  uncaught (dispatch w (Resize t iw ih))
  = uncaught w ++ [TypeError "gl.viewport"] /\
  canvas_width (dispatch w (Resize t iw ih)) = iw /\
  canvas_height (dispatch w (Resize t iw ih)) = ih.
Proof.
  destruct w as [vc vg vp st hc cw ch ws g iw0 ih0 nw co rf ol ors un].
  unfold contextless. cbn.
  intros (-> & -> & -> & Hc & -> & ->). cbn. repeat split; exact Hc.
Qed.

Lemma contextless_frame (w : World) (t : Z) :
  contextless w ->
  contextless (dispatch w (AnimationFrame t)) /\
  uncaught (dispatch w (AnimationFrame t)) = uncaught w /\
  canvas_width (dispatch w (AnimationFrame t)) = canvas_width w /\
  canvas_height (dispatch w (AnimationFrame t)) = canvas_height w.
Proof.
  destruct w as [vc vg vp st hc cw ch ws g iw0 ih0 nw co rf ol ors un].
  unfold contextless. cbn.
  intros (-> & -> & -> & Hc & -> & ->). cbn. repeat split; exact Hc.
Qed.

Lemma contextless_run (es : list Event) :
  forall w, contextless w -> no_load es = true ->
  contextless (run w es) /\
  uncaught (run w es)
  = uncaught w ++ map (fun _ => TypeError "gl.viewport") (resize_sizes es) /\
  (canvas_width (run w es), canvas_height (run w es))
  = final_size (canvas_width w, canvas_height w) es.
Proof.
  unfold final_size.
  induction es as [| e es IH]; intros w Hw Hes.
  - cbn. rewrite app_nil_r. split; [exact Hw | split; reflexivity].
  - change (run w (e :: es)) with (run (dispatch w e) es).
    cbn [no_load forallb] in Hes. apply andb_prop in Hes.
    destruct Hes as [He Hes].
    destruct e as [t | t iw ih | t]; [discriminate | |].
    + destruct (contextless_resize w t iw ih Hw) as (Hw' & Hu & Hcw & Hch).
      destruct (IH _ Hw' Hes) as (Hw'' & Hu' & Hsz).
      rewrite Hu', Hu, Hsz, Hcw, Hch, <- app_assoc.
      cbn [resize_sizes map app]. rewrite last_cons.
      split; [exact Hw'' | split; reflexivity].
    + destruct (contextless_frame w t Hw) as (Hw' & Hu & Hcw & Hch).
      destruct (IH _ Hw' Hes) as (Hw'' & Hu' & Hsz).
      rewrite Hu', Hu, Hsz, Hcw, Hch. cbn [resize_sizes].
      split; [exact Hw'' | split; reflexivity].
Qed.

(** X11. A page without WebGL never recovers and never draws: after the load
    event, over any run of resize and animation-frame events, the
    context is never called, no frame is ever requested and the console
    keeps its one entry; the canvas still follows the window, and each
    resize event throws one more TypeError at [gl.viewport]. *)
Theorem no_context_never_draws (d : Driver) (iw ih ts t : Z)
    (es : list Event) :
  no_load es = true ->
  let w := run (boot d true false iw ih ts) (Load t :: es) in
  calls (gl w) = [] /\
  raf w = [] /\
  console w = [ConsoleLog ["WebGL not supported"%string]] /\
  uncaught w
  = map (fun _ => TypeError "gl.viewport") (resize_sizes es) /\
  (canvas_width w, canvas_height w) = final_size (300, 150) es.
Proof.
  intros Hes w. subst w.
  change (run (boot d true false iw ih ts) (Load t :: es))
    with (run (dispatch (boot d true false iw ih ts) (Load t)) es).
  assert (H0 : contextless (dispatch (boot d true false iw ih ts) (Load t)))
    by (cbn; repeat split).
  destruct (contextless_run es _ H0 Hes) as (Hc & Hu & Hsz).
  destruct Hc as (_ & _ & Hco & Hca & Hr & _).
  repeat split; assumption.
Qed.

Lemma no_context_never_draws_witness :
  let es := [Resize 1520 1024 768; AnimationFrame 1533; Resize 1600 640 480] in
  let w := run (boot accepting true false 800 600 1000) (Load 1500 :: es) in
  calls (gl w) = [] /\
  raf w = [] /\
  console w = [ConsoleLog ["WebGL not supported"%string]] /\
  uncaught w = [TypeError "gl.viewport"; TypeError "gl.viewport"] /\
  (canvas_width w, canvas_height w) = (640, 480).
Proof.
  intros es.
  apply (no_context_never_draws accepting 800 600 1000 1500 es).
  reflexivity.
Defined.

(** ** The loop under any driver *)

Lemma running_resize (ts : Z) (w : World) (t iw ih : Z) :
  running ts w ->
  onresize w = Some fn_resizeCanvas ->
  running ts (dispatch w (Resize t iw ih)) /\
  elapsed_times (dispatch w (Resize t iw ih)) = elapsed_times w /\
  draws (gl (dispatch w (Resize t iw ih))) = draws (gl w) /\
  canvas_width (dispatch w (Resize t iw ih)) = iw /\
  canvas_height (dispatch w (Resize t iw ih)) = ih.
Proof.
  intros (Hc & Hg & Hp & Hs & Hr & Hu) Ho.
  set (w1 := set_window iw ih t w).
  assert (Hd : dispatch w (Resize t iw ih)
               = match resizeCanvas w1 with
                 | (Normal _, w') => w'
                 | (Throw e, w') => set_uncaught (uncaught w' ++ [e]) w'
                 end).
  { unfold dispatch. cbn [onresize set_window]. rewrite Ho. reflexivity. }
  rewrite Hd, (resizeCanvas_running w1 Hc Hg).
  unfold running, elapsed_times.
  cbn [w1 var_canvas var_gl var_program startTime raf uncaught gl
       set_gl set_canvas_height set_canvas_width set_window
       canvas_width canvas_height innerWidth innerHeight snd gl_viewport].
  assert (Hcalls : calls (if (iw <? 0) || (ih <? 0)
                          then raise (called (gl w) (Viewport 0 0 iw ih))
                                     INVALID_VALUE
                          else with_viewport
                                 (called (gl w) (Viewport 0 0 iw ih))
                                 (0, 0, iw, ih))
                   = calls (gl w) ++ [Viewport 0 0 iw ih])
    by (destruct ((iw <? 0) || (ih <? 0)); reflexivity).
  assert (Hdraws : draws (if (iw <? 0) || (ih <? 0)
                          then raise (called (gl w) (Viewport 0 0 iw ih))
                                     INVALID_VALUE
                          else with_viewport
                                 (called (gl w) (Viewport 0 0 iw ih))
                                 (0, 0, iw, ih))
                   = draws (gl w))
    by (destruct ((iw <? 0) || (ih <? 0)); reflexivity).
  rewrite Hcalls, Hdraws, times_of_app. cbn [times_of]. rewrite app_nil_r.
  repeat split; assumption.
Qed.

Lemma running_events (ts : Z) (es : list Event) :
  forall w, running ts w -> onresize w = Some fn_resizeCanvas ->
  no_load es = true ->
  running ts (run w es) /\
  elapsed_times (run w es)
  = elapsed_times w ++ map (elapsed ts) (frame_times es).
Proof.
  induction es as [| e es IH]; intros w Hw Ho Hes.
  - cbn. rewrite app_nil_r. split; [exact Hw | reflexivity].
  - change (run w (e :: es)) with (run (dispatch w e) es).
    cbn [no_load forallb] in Hes. apply andb_prop in Hes.
    destruct Hes as [He Hes].
    assert (Ho' : onresize (dispatch w e) = Some fn_resizeCanvas).
    { rewrite onresize_dispatch. exact Ho. }
    destruct e as [t | t iw ih | t]; [discriminate | |].
    + destruct (running_resize ts w t iw ih Hw Ho) as (Hw' & Ht & _).
      destruct (IH _ Hw' Ho' Hes) as (Hw'' & Ht').
      rewrite Ht', Ht. split; [exact Hw'' | reflexivity].
    + destruct (frame_event ts w t Hw) as (Hw' & Ht & _).
      destruct (IH _ Hw' Ho' Hes) as (Hw'' & Ht').
      rewrite Ht', Ht, <- app_assoc. split; [exact Hw'' | reflexivity].
Qed.

(** X14. Under any driver, on a page with its canvas and a context: over the
    load event and any run of resize and animation-frame events, nothing
    is thrown and exactly one [render] is pending at the end; [render]
    has run once at the load event and once per animation frame, each
    time with the time [(t - startTime)/1000] of its event, and the
    resize events have added no frame. *)
Theorem loop_survives_resizes (d : Driver) (iw ih ts t0 : Z)
    (es : list Event) :
  no_load es = true ->
  let w := run (boot d true true iw ih ts) (Load t0 :: es) in
  uncaught w = [] /\
  raf w = [fn_render] /\
  elapsed_times w = map (elapsed ts) (t0 :: frame_times es).
Proof.
  intros Hes w. subst w.
  change (run (boot d true true iw ih ts) (Load t0 :: es))
    with (run (dispatch (boot d true true iw ih ts) (Load t0)) es).
  destruct (load_running d iw ih ts t0) as (Hrun & _ & _ & _ & Hca & _).
  assert (Ho : onresize (dispatch (boot d true true iw ih ts) (Load t0))
               = Some fn_resizeCanvas).
  { rewrite onresize_dispatch. reflexivity. }
  destruct (running_events ts es _ Hrun Ho Hes) as (Hrun' & Ht).
  rewrite Ht. unfold elapsed_times at 1. rewrite Hca, times_of_app.
  destruct Hrun' as (_ & _ & _ & _ & Hr & Hu).
  repeat split; assumption.
Qed.

Lemma loop_survives_resizes_witness :
  let es := [AnimationFrame 1516; Resize 1520 1024 768; AnimationFrame 1533] in
  let w := run (boot (rejecting_fragment "bad") true true 800 600 1000)
               (Load 1500 :: es) in
  uncaught w = [] /\
  raf w = [fn_render] /\
  elapsed_times w = map (elapsed 1000) [1500; 1516; 1533].
Proof.
  intros es.
  apply (loop_survives_resizes (rejecting_fragment "bad")
           800 600 1000 1500 es).
  reflexivity.
Defined.


(** ** What [render] and [resizeCanvas] leave alone *)

(** Decide a context call by cases on what it looks up. *)
Ltac gl_cases w :=
  destruct w as [vc vg vp st hc cw ch ws g iw ih nw co rf ol ors un];
  destruct g as [dr shs ps cur bufs ab ats vpt errs drws cls];
  cbv -[nth_error list_set app Z.ltb orb String.eqb];
  repeat match goal with
         | |- context [match ?x with _ => _ end] =>
             lazymatch x with
             | context [match _ with _ => _ end] => fail
             | _ => destruct x
             end
         end;
  reflexivity.

Lemma surface_getUniformLocation (p : nat) (name : string) (w : World) :
  surface (set_gl (snd (getUniformLocation p name (gl w))) w) = surface w.
Proof. gl_cases w. Qed.

Lemma surface_uniform2f (loc : option string) (x y : Q) (w : World) :
  surface (set_gl (snd (uniform2f loc x y (gl w))) w) = surface w.
Proof. gl_cases w. Qed.

Lemma surface_uniform1f (loc : option string) (x : Q) (w : World) :
  surface (set_gl (snd (uniform1f loc x (gl w))) w) = surface w.
Proof. gl_cases w. Qed.

Lemma surface_drawArrays (first count : Z) (w : World) :
  surface (set_gl (snd (drawArrays first count (gl w))) w) = surface w.
Proof. gl_cases w. Qed.

(** X12. [render] never resizes the canvas, never moves the viewport and never
    switches program, in any state and whether it returns or throws. *)
Theorem render_keeps_surface (w : World) :
  canvas_width (snd (render w)) = canvas_width w /\
  canvas_height (snd (render w)) = canvas_height w /\
  viewport (gl (snd (render w))) = viewport (gl w) /\
  current (gl (snd (render w))) = current (gl w).
Proof.
  assert (H : preserves surface render).
  { unfold render.
    repeat first
      [ apply preserves_ret | apply preserves_get
      | apply preserves_gl_member | apply preserves_the_program
      | apply preserves_on_canvas; apply preserves_get
      | apply preserves_on_gl; intros ?;
        first [ apply surface_getUniformLocation | apply surface_uniform2f
              | apply surface_uniform1f | apply surface_drawArrays ]
      | apply preserves_modify; intros ?; reflexivity
      | match goal with
        | |- preserves _ (bind _ _) => apply preserves_bind; [| intros ?]
        end ]. }
  specialize (H w). unfold surface in H.
  repeat split.
  - exact (f_equal (fun x => fst (fst (fst x))) H).
  - exact (f_equal (fun x => snd (fst (fst x))) H).
  - exact (f_equal (fun x => snd (fst x)) H).
  - exact (f_equal snd H).
Qed.

Lemma output_viewport (x y width height : Z) (w : World) :
  output (set_gl (snd (gl_viewport x y width height (gl w))) w) = output w.
Proof. gl_cases w. Qed.

(** X13. [resizeCanvas] draws nothing, requests no frame, changes no uniform
    and logs nothing, in any state and whether it returns or throws. *)
Theorem resize_keeps_output (w : World) :
  draws (gl (snd (resizeCanvas w))) = draws (gl w) /\
  programs (gl (snd (resizeCanvas w))) = programs (gl w) /\
  raf (snd (resizeCanvas w)) = raf w /\
  console (snd (resizeCanvas w)) = console w.
Proof.
  assert (H : preserves output resizeCanvas).
  { unfold resizeCanvas.
    repeat first
      [ apply preserves_ret | apply preserves_get
      | apply preserves_gl_member
      | apply preserves_on_canvas;
        first [ apply preserves_get
              | apply preserves_modify; intros ?; reflexivity ]
      | apply preserves_on_gl; intros ?; apply output_viewport
      | match goal with
        | |- preserves _ (bind _ _) => apply preserves_bind; [| intros ?]
        end ]. }
  specialize (H w). unfold output in H.
  repeat split.
  - exact (f_equal (fun x => fst (fst (fst x))) H).
  - exact (f_equal (fun x => snd (fst (fst x))) H).
  - exact (f_equal (fun x => snd (fst x)) H).
  - exact (f_equal snd H).
Qed.

(** ** The loop under a capable driver *)

Ltac js_eval_page t :=
  eval cbv -[vertexShaderSource fragmentShaderSource
             Z.ltb Z.sub orb attrib_slot] in t.

Ltac js_eval_linked t :=
  eval cbv -[app Z.sub] in t.

(** Run the first statement of the sequence under execution. *)
Ltac js_run ev :=
  lazymatch goal with
  | |- context [(if ?b then ?x else ?y) ?w] =>
      let b' := eval cbv in b in
      lazymatch b' with
      | true => change ((if b then x else y) w) with (x w)
      | false => change ((if b then x else y) w) with (y w)
      end
  | |- context [bind ?m ?k ?w] =>
      let res := ev (m w) in
      change (bind m k w) with (after res k);
      cbv beta iota delta [after]
  end.

Lemma capable_answers (d : Driver) :
  capable d = true ->
  (exists logv, drv_compile d VERTEX_SHADER vertexShaderSource
                = (true, logv)) /\
  (exists logf, drv_compile d FRAGMENT_SHADER fragmentShaderSource
                = (true, logf)) /\
  drv_link d vertexShaderSource fragmentShaderSource = true /\
  (exists n, attrib_slot (drv_attrib d "a_position") = Some n
             /\ (n < MAX_VERTEX_ATTRIBS)%nat) /\
  drv_uniform d "iResolution" = true /\
  drv_uniform d "iTime" = true.
Proof.
  unfold capable, links. intros H.
  apply andb_prop in H. destruct H as [H Ht].
  apply andb_prop in H. destruct H as [H Hr].
  apply andb_prop in H. destruct H as [H Hs].
  apply andb_prop in H. destruct H as [H Hl].
  apply andb_prop in H. destruct H as [Hv Hf].
  destruct (drv_compile d VERTEX_SHADER vertexShaderSource) as [okv logv].
  destruct (drv_compile d FRAGMENT_SHADER fragmentShaderSource)
    as [okf logf].
  cbn [fst] in Hv, Hf. subst okv okf.
  repeat split; eauto.
  unfold attrib_slot in *.
  destruct ((0 <=? drv_attrib d "a_position")
            && (drv_attrib d "a_position" <? Z.of_nat MAX_VERTEX_ATTRIBS))
    eqn:E; [| discriminate].
  eexists. split; [reflexivity |].
  apply andb_prop in E. destruct E as [E1 E2].
  apply Z.leb_le in E1. apply Z.ltb_lt in E2. lia.
Qed.

(** [initShader] under a capable driver, on a window that has a size. *)
Lemma initShader_capable (d : Driver) (iw ih ts t : Z) :
  capable d = true -> 0 <= iw -> 0 <= ih ->
  forall r, initShader (set_window iw ih t (boot d true true iw ih ts)) = r ->
  fst r = Normal tt /\
  healthy ts (snd r) /\
  canvas_width (snd r) = iw /\
  canvas_height (snd r) = ih /\
  buffers (gl (snd r)) = [quad] /\
  array_buffer (gl (snd r)) = Some 0%nat /\
  (exists n, attrib_slot (drv_attrib d "a_position") = Some n /\
             nth_error (attribs (gl (snd r))) n
             = Some {| at_enabled := true;
                       at_pointer := Some (0%nat, 2) |}) /\
  draws (gl (snd r)) = [frame_draw (iw, ih) (elapsed ts t)].
Proof.
  intros Hcap Hiw Hih.
  destruct (capable_answers d Hcap)
    as ((logv & Ev) & (logf & Ef) & El & (n & Es & Hn) & Hres & Htime).
  assert (Evp : (iw <? 0) || (ih <? 0) = false).
  { apply orb_false_intro; apply Z.ltb_ge; assumption. }
  destruct d as [cmp lnk att uni].
  cbn [drv_compile drv_link drv_attrib drv_uniform] in *.
  unfold MAX_VERTEX_ATTRIBS in Hn.
  unfold initShader.
  assert (Hcases : In n [0; 1; 2; 3; 4; 5; 6; 7]%nat) by (cbn [In]; lia).
  clear Hn. cbn [In] in Hcases.
  repeat (destruct Hcases as [<- | Hcases]); [.. | destruct Hcases].
  all: repeat first
         [ rewrite Ev | rewrite Ef | rewrite El | rewrite Es | rewrite Evp
         | rewrite Hres | rewrite Htime | js_run js_eval_page ].
  all: unfold render.
  all: repeat first
         [ rewrite Ev | rewrite Ef | rewrite El | rewrite Es | rewrite Evp
         | rewrite Hres | rewrite Htime | js_run js_eval_page ].
  all: intros r <-;
    cbv -[vertexShaderSource fragmentShaderSource
          Z.ltb Z.sub orb attrib_slot];
    repeat split; try assumption;
    eexists; split; reflexivity.
Qed.

Lemma healthy_frame (ts : Z) (w : World) (t : Z) :
  healthy ts w ->
  healthy ts (dispatch w (AnimationFrame t)) /\
  draws (gl (dispatch w (AnimationFrame t)))
  = draws (gl w)
    ++ [frame_draw (canvas_width w, canvas_height w) (elapsed ts t)] /\
  canvas_width (dispatch w (AnimationFrame t)) = canvas_width w /\
  canvas_height (dispatch w (AnimationFrame t)) = canvas_height w.
Proof.
  destruct w as [vc vg vp st hc cw ch ws g iw ih nw co rf ol ors un].
  destruct g as [dr shs ps cur bufs ab ats vpt errs drws cls].
  destruct dr as [cmp lnk att uni].
  unfold healthy, running.
  cbn [var_canvas var_gl var_program startTime raf uncaught gl errors
       current driver drv_uniform viewport canvas_width canvas_height].
  intros ((-> & -> & -> & -> & -> & ->) & -> & -> & Hl & Hres & Htime & ->).
  unfold is_linked in Hl. cbn [programs] in Hl.
  destruct ps as [| [atd [] res tm] ps']; try discriminate. clear Hl.
  unfold dispatch.
  cbn [raf set_window set_raf fold_left innerWidth innerHeight].
  unfold run_callback. cbn [call].
  match goal with
  | |- context [render ?w1] =>
      remember (render w1) as r eqn:Hr; symmetry in Hr; revert r Hr
  end.
  unfold render.
  repeat first [rewrite Hres | rewrite Htime | js_run js_eval_linked].
  intros r <-. cbv -[app Z.sub]. repeat split; assumption.
Qed.

Lemma healthy_resize (ts : Z) (w : World) (t iw ih : Z) :
  healthy ts w ->
  onresize w = Some fn_resizeCanvas ->
  0 <= iw -> 0 <= ih ->
  healthy ts (dispatch w (Resize t iw ih)) /\
  draws (gl (dispatch w (Resize t iw ih))) = draws (gl w) /\
  canvas_width (dispatch w (Resize t iw ih)) = iw /\
  canvas_height (dispatch w (Resize t iw ih)) = ih.
Proof.
  intros Hw Ho Hiw Hih.
  assert (Evp : (iw <? 0) || (ih <? 0) = false).
  { apply orb_false_intro; apply Z.ltb_ge; assumption. }
  destruct w as [vc vg vp st hc cw ch ws g iw0 ih0 nw co rf ol ors un].
  destruct g as [dr shs ps cur bufs ab ats vpt errs drws cls].
  revert Hw Ho. unfold healthy, running.
  cbn [var_canvas var_gl var_program startTime raf uncaught gl errors
       current driver viewport canvas_width canvas_height onresize].
  intros ((-> & -> & -> & -> & -> & ->) & -> & -> & Hl & Hres & Htime & ->)
         ->.
  unfold is_linked in *. cbn [programs] in Hl.
  cbv -[Z.ltb orb nth_error app]. rewrite Evp.
  cbv -[Z.ltb orb nth_error app]. repeat split; assumption.
Qed.

Lemma healthy_events (ts : Z) (es : list Event) :
  forall w, healthy ts w -> onresize w = Some fn_resizeCanvas ->
  no_load es = true -> sizes_ok es = true ->
  healthy ts (run w es) /\
  draws (gl (run w es))
  = draws (gl w) ++ frames_drawn ts (canvas_width w, canvas_height w) es /\
  (canvas_width (run w es), canvas_height (run w es))
  = final_size (canvas_width w, canvas_height w) es.
Proof.
  unfold final_size.
  induction es as [| e es IH]; intros w Hw Ho Hes Hsz.
  - cbn. rewrite app_nil_r. split; [exact Hw | split; reflexivity].
  - change (run w (e :: es)) with (run (dispatch w e) es).
    cbn [no_load sizes_ok forallb] in Hes, Hsz.
    apply andb_prop in Hes. destruct Hes as [He Hes].
    apply andb_prop in Hsz. destruct Hsz as [Hs Hsz].
    assert (Ho' : onresize (dispatch w e) = Some fn_resizeCanvas)
      by (rewrite onresize_dispatch; exact Ho).
    destruct e as [t | t iw ih | t]; [discriminate | |].
    + apply andb_prop in Hs. destruct Hs as [Hiw Hih].
      apply Z.leb_le in Hiw. apply Z.leb_le in Hih.
      destruct (healthy_resize ts w t iw ih Hw Ho Hiw Hih)
        as (Hw' & Hd & Hcw & Hch).
      destruct (IH _ Hw' Ho' Hes Hsz) as (Hw'' & Hd' & Hfs).
      rewrite Hd', Hd, Hfs, Hcw, Hch.
      cbn [frames_drawn resize_sizes]. rewrite last_cons.
      split; [exact Hw'' | split; reflexivity].
    + destruct (healthy_frame ts w t Hw) as (Hw' & Hd & Hcw & Hch).
      destruct (IH _ Hw' Ho' Hes Hsz) as (Hw'' & Hd' & Hfs).
      rewrite Hd', Hd, Hfs, Hcw, Hch, <- app_assoc.
      cbn [frames_drawn resize_sizes app].
      split; [exact Hw'' | split; reflexivity].
Qed.

Lemma load_capable (d : Driver) (iw ih ts t : Z) :
  capable d = true -> 0 <= iw -> 0 <= ih ->
  let w := dispatch (boot d true true iw ih ts) (Load t) in
  healthy ts w /\
  canvas_width w = iw /\
  canvas_height w = ih /\
  buffers (gl w) = [quad] /\
  array_buffer (gl w) = Some 0%nat /\
  (exists n, attrib_slot (drv_attrib d "a_position") = Some n /\
             nth_error (attribs (gl w)) n
             = Some {| at_enabled := true;
                       at_pointer := Some (0%nat, 2) |}) /\
  draws (gl w) = [frame_draw (iw, ih) (elapsed ts t)].
Proof.
  intros Hcap Hiw Hih.
  pose proof (initShader_capable d iw ih ts t Hcap Hiw Hih _ eq_refl) as H.
  change (dispatch (boot d true true iw ih ts) (Load t))
    with (match initShader (set_window iw ih t (boot d true true iw ih ts))
          with
          | (Normal _, w') => w'
          | (Throw e, w') => set_uncaught (uncaught w' ++ [e]) w'
          end).
  destruct (initShader _) as [c w'].
  cbn [fst snd] in H. destruct H as (-> & H). exact H.
Qed.

(** X15. Under a capable driver and a window that has a size, the load event
    leaves the module running without a GL error: the program is linked
    and current, the buffer holds the quad and is bound, the attribute
    [a_position] is enabled and reads two floats per vertex from it, the
    canvas and the viewport are the window, and one frame has been drawn
    over the whole canvas with [iResolution] its size. *)
Theorem setup_succeeds (d : Driver) (iw ih ts t : Z) :
  capable d = true -> 0 <= iw -> 0 <= ih ->
  let w := dispatch (boot d true true iw ih ts) (Load t) in
  uncaught w = [] /\
  errors (gl w) = [] /\
  console w = [] /\
  current (gl w) = Some 0%nat /\
  is_linked (gl w) 0 = true /\
  buffers (gl w) = [quad] /\
  array_buffer (gl w) = Some 0%nat /\
  (exists n, attrib_slot (drv_attrib d "a_position") = Some n /\
             nth_error (attribs (gl w)) n
             = Some {| at_enabled := true;
                       at_pointer := Some (0%nat, 2) |}) /\
  (canvas_width w, canvas_height w) = (iw, ih) /\
  viewport (gl w) = (0, 0, iw, ih) /\
  draws (gl w) = [frame_draw (iw, ih) (elapsed ts t)].
Proof.
  intros Hcap Hiw Hih w.
  destruct (load_capable d iw ih ts t Hcap Hiw Hih)
    as (Hh & Hcw & Hch & Hb & Hab & Hat & Hd).
  fold w in Hh, Hcw, Hch, Hb, Hab, Hat, Hd.
  destruct (load_running d iw ih ts t) as (_ & _ & _ & Hco & _).
  fold w in Hco.
  destruct (capable_answers d Hcap) as ((lv & Ev) & (lf & Ef) & _).
  unfold diagnostic in Hco. cbn [stage_source] in Hco.
  rewrite Ev, Ef in Hco.
  destruct Hh as (Hrun & He & Hcur & Hl & _ & _ & Hvp).
  rewrite Hcw, Hch in Hvp. rewrite Hcw, Hch.
  destruct Hrun as (_ & _ & _ & _ & _ & Hu).
  repeat split; assumption.
Qed.

Lemma setup_succeeds_witness :
  let w := dispatch (boot accepting true true 800 600 1000) (Load 1500) in
  uncaught w = [] /\
  errors (gl w) = [] /\
  viewport (gl w) = (0, 0, 800, 600) /\
  draws (gl w) = [frame_draw (800, 600) (elapsed 1000 1500)].
Proof.
  destruct (setup_succeeds accepting 800 600 1000 1500)
    as (Hu & He & _ & _ & _ & _ & _ & _ & _ & Hv & Hd);
    try reflexivity; try lia.
  repeat split; assumption.
Defined.

(** X16. Under a capable driver, over the load event and any run of resize
    and animation-frame events with sizes that are not negative: no GL
    error is ever flagged and nothing is thrown; the canvas and the
    viewport end as the last resize left them; and the frames drawn are
    exactly one at the load event and one per animation frame, each over
    the whole canvas as the latest resize before it sized it, with
    [iResolution] that size and [iTime] the elapsed time of its event. *)
Theorem frames_follow_resizes (d : Driver) (iw ih ts t0 : Z)
    (es : list Event) :
  capable d = true -> 0 <= iw -> 0 <= ih ->
  no_load es = true -> sizes_ok es = true ->
  let w := run (boot d true true iw ih ts) (Load t0 :: es) in
  uncaught w = [] /\
  errors (gl w) = [] /\
  draws (gl w)
  = frame_draw (iw, ih) (elapsed ts t0) :: frames_drawn ts (iw, ih) es /\
  (canvas_width w, canvas_height w) = final_size (iw, ih) es /\
  viewport (gl w) = (0, 0, canvas_width w, canvas_height w).
Proof.
  intros Hcap Hiw Hih Hes Hsz w. subst w.
  change (run (boot d true true iw ih ts) (Load t0 :: es))
    with (run (dispatch (boot d true true iw ih ts) (Load t0)) es).
  destruct (load_capable d iw ih ts t0 Hcap Hiw Hih)
    as (Hh & Hcw & Hch & _ & _ & _ & Hd).
  assert (Ho : onresize (dispatch (boot d true true iw ih ts) (Load t0))
               = Some fn_resizeCanvas)
    by (rewrite onresize_dispatch; reflexivity).
  destruct (healthy_events ts es _ Hh Ho Hes Hsz) as (Hh' & Hd' & Hfs).
  rewrite Hcw, Hch in Hd', Hfs. rewrite Hd in Hd'.
  destruct Hh' as (Hrun & He & _ & _ & _ & _ & Hvp).
  destruct Hrun as (_ & _ & _ & _ & _ & Hu).
  repeat split; assumption.
Qed.

Lemma frames_follow_resizes_witness :
  let es := [AnimationFrame 1516; Resize 1520 1024 768; AnimationFrame 1533] in
  let w := run (boot accepting true true 800 600 1000) (Load 1500 :: es) in
  uncaught w = [] /\
  errors (gl w) = [] /\
  draws (gl w)
  = [frame_draw (800, 600) (elapsed 1000 1500);
     frame_draw (800, 600) (elapsed 1000 1516);
     frame_draw (1024, 768) (elapsed 1000 1533)] /\
  (canvas_width w, canvas_height w) = (1024, 768) /\
  viewport (gl w) = (0, 0, canvas_width w, canvas_height w).
Proof.
  intros es.
  apply (frames_follow_resizes accepting 800 600 1000 1500 es);
    solve [reflexivity | lia].
Defined.

End HostEvents.
